(** * FalconVault: encrypted key vault, network retry layer and request dispatcher

    A shallow embedding of the TypeScript sources
    - [src/services/cryptoService.ts]  (text codec, envelope, RPC layer, signing),
    - [src/hooks/useVault.ts]          (vault session manager and persistence),
    - the signer tool component        (request dispatcher),
    together with the properties of the design document that concern them.

    Platform services that the sources only call (WebCrypto, JSON, ethers,
    the RPC endpoints) are interfaces: records of operations with the laws
    the platform documents, instantiated by small executable models where a
    statement is evaluated on concrete data. *)

From Stdlib Require Import ZArith Lia Bool List String Ascii.
From stdpp Require Import base option list strings gmap.
Import ListNotations.

Local Open Scope Z_scope.

(* ===================================================================== *)
(** * Part I. The program                                                 *)
(* ===================================================================== *)

(** Values thrown by the sources are [Error] objects carrying a message. *)
Inductive Error : Type := MkError (message : string).

Definition message (e : Error) : string := let 'MkError m := e in m.

(** [s.includes(needle)] *)
Fixpoint includes (s needle : string) : bool :=
  String.prefix needle s
  || match s with
     | EmptyString => false
     | String _ rest => includes rest needle
     end.

(** Outcome of a call that either returns or throws. *)
Inductive Result (A : Type) : Type :=
| Ok (a : A)
| Throw (e : Error).
Arguments Ok {A} a.
Arguments Throw {A} e.

(* ===================================================================== *)
(** * 1. Text codec: [TextEncoder.encode] and [TextDecoder.decode]        *)
(* ===================================================================== *)

(** [encryptData] turns its plaintext into bytes with [new TextEncoder()]
    and [decryptData] turns the decrypted bytes back with
    [new TextDecoder()] (UTF-8, non-fatal, [ignoreBOM] false).  A JavaScript
    string is a sequence of 16-bit code units. *)
Module TextCodec.

Definition DOMString := list Z.
Definition bytes := list Z.

Definition is_lead_surrogate (c : Z) : bool := (0xD800 <=? c) && (c <=? 0xDBFF).
Definition is_trail_surrogate (c : Z) : bool := (0xDC00 <=? c) && (c <=? 0xDFFF).

(** Conversion of a string to a sequence of scalar values, as done on
    the argument of [TextEncoder.encode]: a surrogate pair becomes one
    supplementary code point, an unpaired surrogate becomes U+FFFD. *)
Fixpoint to_USVString (s : DOMString) : list Z :=
  match s with
  | [] => []
  | c :: rest =>
      if is_lead_surrogate c then
        match rest with
        | [] => [0xFFFD]
        | d :: rest' =>
            if is_trail_surrogate d
            then (0x10000 + 0x400 * Z.land c 0x3FF + Z.land d 0x3FF) :: to_USVString rest'
            else 0xFFFD :: to_USVString rest
        end
      else if is_trail_surrogate c then 0xFFFD :: to_USVString rest
      else c :: to_USVString rest
  end.

(** Continuation bytes of the UTF-8 encoder: [count] bytes, most
    significant group first. *)
Fixpoint utf8_continuation (cp : Z) (count : nat) : bytes :=
  match count with
  | O => []
  | S k => Z.lor 0x80 (Z.land (Z.shiftr cp (6 * Z.of_nat k)) 0x3F) :: utf8_continuation cp k
  end.

Definition utf8_encode (cp : Z) : bytes :=
  if cp <=? 0x7F then [cp]
  else
    let '(count, offset) :=
      if cp <=? 0x7FF then (1%nat, 0xC0)
      else if cp <=? 0xFFFF then (2%nat, 0xE0)
      else (3%nat, 0xF0) in
    (Z.shiftr cp (6 * Z.of_nat count) + offset) :: utf8_continuation cp count.

Definition TextEncoder_encode (s : DOMString) : bytes :=
  flat_map utf8_encode (to_USVString s).

(** State of the UTF-8 decoder. *)
Record utf8_state := Utf8State {
  u_code_point : Z;
  u_bytes_seen : Z;
  u_bytes_needed : Z;
  u_lower : Z;
  u_upper : Z
}.

Definition utf8_init : utf8_state := Utf8State 0 0 0 0x80 0xBF.

(** A byte read while no sequence is open. *)
Definition utf8_lead (b : Z) : utf8_state * list Z :=
  if (0 <=? b) && (b <=? 0x7F) then (utf8_init, [b])
  else if (0xC2 <=? b) && (b <=? 0xDF) then
    (Utf8State (Z.land b 0x1F) 0 1 0x80 0xBF, [])
  else if (0xE0 <=? b) && (b <=? 0xEF) then
    (Utf8State (Z.land b 0xF) 0 2
       (if b =? 0xE0 then 0xA0 else 0x80) (if b =? 0xED then 0x9F else 0xBF), [])
  else if (0xF0 <=? b) && (b <=? 0xF4) then
    (Utf8State (Z.land b 0x7) 0 3
       (if b =? 0xF0 then 0x90 else 0x80) (if b =? 0xF4 then 0x8F else 0xBF), [])
  else (utf8_init, [0xFFFD]).

(** One byte through the decoder: the new state and the code points
    emitted.  A byte outside the expected range closes the open sequence
    with U+FFFD and is then read again as a lead byte. *)
Definition utf8_handler (st : utf8_state) (b : Z) : utf8_state * list Z :=
  if u_bytes_needed st =? 0 then utf8_lead b
  else if negb ((u_lower st <=? b) && (b <=? u_upper st)) then
    let '(st', out) := utf8_lead b in (st', 0xFFFD :: out)
  else
    let cp := Z.lor (Z.shiftl (u_code_point st) 6) (Z.land b 0x3F) in
    if u_bytes_seen st + 1 =? u_bytes_needed st then (utf8_init, [cp])
    else (Utf8State cp (u_bytes_seen st + 1) (u_bytes_needed st) 0x80 0xBF, []).

Fixpoint utf8_run (st : utf8_state) (bs : bytes) : list Z :=
  match bs with
  | [] => if u_bytes_needed st =? 0 then [] else [0xFFFD]
  | b :: bs' => let '(st', out) := utf8_handler st b in out ++ utf8_run st' bs'
  end.

Definition utf8_decode (bs : bytes) : list Z := utf8_run utf8_init bs.

(** With [ignoreBOM] false the first decoded code point is dropped when
    it is U+FEFF. *)
Definition strip_BOM (cps : list Z) : list Z :=
  match cps with
  | cp :: rest => if cp =? 0xFEFF then rest else cps
  | [] => []
  end.

Definition utf16_encode (cp : Z) : DOMString :=
  if cp <=? 0xFFFF then [cp]
  else [0xD800 + Z.shiftr (cp - 0x10000) 10; 0xDC00 + Z.land (cp - 0x10000) 0x3FF].

Definition TextDecoder_decode (bs : bytes) : DOMString :=
  flat_map utf16_encode (strip_BOM (utf8_decode bs)).

(** Strings whose code units are 16-bit and whose surrogates are paired. *)
Fixpoint well_formed (s : DOMString) : bool :=
  match s with
  | [] => true
  | c :: rest =>
      if is_lead_surrogate c then
        match rest with
        | [] => false
        | d :: rest' => is_trail_surrogate d && well_formed rest'
        end
      else negb (is_trail_surrogate c) && (0 <=? c) && (c <=? 0xFFFF) && well_formed rest
  end.

Definition starts_with_BOM (s : DOMString) : bool :=
  match s with
  | c :: _ => c =? 0xFEFF
  | [] => false
  end.

(** Code units of an ASCII literal. *)
Definition of_string (s : string) : DOMString :=
  map (fun a => Z.of_N (N_of_ascii a)) (list_ascii_of_string s).

End TextCodec.

(* ===================================================================== *)
(** * 2. Encrypted blobs: [encryptData] and [decryptData]                 *)
(* ===================================================================== *)

Module Crypto.
Import TextCodec.

Definition is_byte (b : Z) : Prop := 0 <= b <= 255.
Definition byte_array (l : bytes) : Prop := Forall is_byte l.

(** The object that [encryptData] serialises. *)
Record Packet := MkPacket { salt : bytes; iv : bytes; data : bytes }.

(** What the sources use of the browser: PBKDF2 key derivation and
    AES-GCM from [crypto.subtle], and the envelope codec
    [btoa(JSON.stringify(packet))] / [JSON.parse(atob(blob))].  The laws
    are those of the platform: AES-GCM decryption inverts encryption under
    the same key and nonce, ciphertexts are byte arrays, and a packet of
    byte arrays survives the envelope codec. *)
Class WebPlatform := {
  CryptoKey : Type;
  PBKDF2_SHA256 : bytes -> bytes -> Z -> CryptoKey;
  AES_GCM_encrypt : CryptoKey -> bytes -> bytes -> bytes;
  AES_GCM_decrypt : CryptoKey -> bytes -> bytes -> option bytes;
  btoa_JSON_stringify : Packet -> string;
  JSON_parse_atob : string -> option Packet;
  AES_GCM_encrypt_bytes : forall k nonce pt,
    byte_array pt -> byte_array (AES_GCM_encrypt k nonce pt);
  AES_GCM_decrypt_encrypt : forall k nonce pt,
    byte_array pt -> AES_GCM_decrypt k nonce (AES_GCM_encrypt k nonce pt) = Some pt;
  JSON_parse_atob_stringify : forall p,
    byte_array (salt p) -> byte_array (iv p) -> byte_array (data p) ->
    length (salt p) = 16%nat -> length (iv p) = 12%nat ->
    JSON_parse_atob (btoa_JSON_stringify p) = Some p
}.

(** [new Uint8Array(array)]: every element is taken modulo 256. *)
Definition Uint8Array_from (l : list Z) : bytes := map (fun x => x mod 256) l.

Section WithPlatform.
Context {platform : WebPlatform}.

(** [getKey]: PBKDF2 over the UTF-8 bytes of the password, SHA-256,
    100000 iterations, giving an AES-GCM key. *)
Definition getKey (password : DOMString) (salt : bytes) : CryptoKey :=
  PBKDF2_SHA256 (TextEncoder_encode password) salt 100000.

(** [encryptData]; the two [getRandomValues] draws are the arguments
    [salt] (16 bytes) and [iv] (12 bytes). *)
Definition encryptData (data : DOMString) (password : DOMString)
    (salt iv : bytes) : string :=
  let key := getKey password salt in
  let encrypted := AES_GCM_encrypt key iv (TextEncoder_encode data) in
  btoa_JSON_stringify (MkPacket salt iv encrypted).

Definition decryption_failed : Error :=
  MkError "Decryption failed. Password incorrect or data corrupted.".

(** [decryptData]: whatever goes wrong inside the [try] is rethrown as
    the one generic error. *)
Definition decryptData (encryptedBase64 : string) (password : DOMString)
    : Result DOMString :=
  match JSON_parse_atob encryptedBase64 with
  | None => Throw decryption_failed
  | Some packet =>
      let salt := Uint8Array_from (salt packet) in
      let iv := Uint8Array_from (iv packet) in
      let data := Uint8Array_from (data packet) in
      let key := getKey password salt in
      match AES_GCM_decrypt key iv data with
      | None => Throw decryption_failed
      | Some decrypted => Ok (TextDecoder_decode decrypted)
      end
  end.
End WithPlatform.

(** ** An executable platform
    A small cipher with the interface of the browser's: the key is the
    password bytes followed by the salt, a byte is encrypted to its
    complement, and a one-byte tag over key, nonce and plaintext is put in
    front.  The envelope writes one character per byte. *)
Module Demo.

Definition sum_bytes (l : bytes) : Z := fold_right Z.add 0 l.

Definition tag (k nonce pt : bytes) : Z :=
  (sum_bytes k + sum_bytes nonce + sum_bytes pt) mod 256.

Definition flip (b : Z) : Z := 255 - b.

Definition encrypt (k nonce pt : bytes) : bytes :=
  tag k nonce pt :: map flip pt.

Definition decrypt (k nonce ct : bytes) : option bytes :=
  match ct with
  | [] => None
  | t :: body =>
      let pt := map flip body in
      if t =? tag k nonce pt then Some pt else None
  end.

Definition char_of_byte (b : Z) : ascii := ascii_of_N (Z.to_N b).
Definition byte_of_char (a : ascii) : Z := Z.of_N (N_of_ascii a).

Definition stringify (p : Packet) : string :=
  string_of_list_ascii (map char_of_byte (salt p ++ iv p ++ data p)).

Definition parse (s : string) : option Packet :=
  let l := map byte_of_char (list_ascii_of_string s) in
  if (length l <? 28)%nat then None
  else Some (MkPacket (firstn 16 l) (firstn 12 (skipn 16 l)) (skipn 28 l)).

Lemma flip_flip (pt : bytes) : map flip (map flip pt) = pt.
Proof.
  rewrite map_map. rewrite <- (map_id pt) at 2.
  apply map_ext. intros b. unfold flip. lia.
Qed.

Lemma encrypt_bytes (k nonce pt : bytes) :
  byte_array pt -> byte_array (encrypt k nonce pt).
Proof.
  intros Hpt. constructor.
  - unfold is_byte, tag. Z.div_mod_to_equations. lia.
  - induction Hpt as [| b l Hb _ IH]; constructor; [| exact IH].
    unfold is_byte, flip in *. lia.
Qed.

Lemma decrypt_encrypt (k nonce pt : bytes) :
  byte_array pt -> decrypt k nonce (encrypt k nonce pt) = Some pt.
Proof.
  intros _. unfold decrypt, encrypt. rewrite flip_flip.
  now rewrite Z.eqb_refl.
Qed.

Lemma byte_of_char_of_byte (l : bytes) :
  byte_array l -> map byte_of_char (map char_of_byte l) = l.
Proof.
  induction 1 as [| b l Hb _ IH]; [reflexivity |].
  cbn [map]. rewrite IH. f_equal.
  unfold byte_of_char, char_of_byte. unfold is_byte in Hb.
  rewrite N_ascii_embedding by lia. lia.
Qed.

Lemma parse_stringify (p : Packet) :
  byte_array (salt p) -> byte_array (iv p) -> byte_array (data p) ->
  length (salt p) = 16%nat -> length (iv p) = 12%nat ->
  parse (stringify p) = Some p.
Proof.
  intros Hs Hi Hd Ls Li. destruct p as [s i d]. cbn [salt iv data] in *.
  unfold parse, stringify. cbv zeta. cbn [salt iv data].
  rewrite list_ascii_of_string_of_list_ascii.
  rewrite byte_of_char_of_byte
    by (unfold byte_array; rewrite !Forall_app; auto).
  assert (Hlen : (length (s ++ i ++ d) <? 28)%nat = false).
  { apply Nat.ltb_ge. rewrite !length_app. lia. }
  rewrite Hlen. f_equal.
  rewrite (take_app_length' s (i ++ d) 16) by (symmetry; exact Ls).
  rewrite (drop_app_length' s (i ++ d) 16) by (symmetry; exact Ls).
  rewrite (take_app_length' i d 12) by (symmetry; exact Li).
  rewrite (app_assoc s i d).
  rewrite (drop_app_length' (s ++ i) d 28) by (rewrite length_app; lia).
  reflexivity.
Qed.

#[export] Instance platform : WebPlatform := {|
  CryptoKey := bytes;
  PBKDF2_SHA256 := fun password salt _ => password ++ salt;
  AES_GCM_encrypt := encrypt;
  AES_GCM_decrypt := decrypt;
  btoa_JSON_stringify := stringify;
  JSON_parse_atob := parse;
  AES_GCM_encrypt_bytes := encrypt_bytes;
  AES_GCM_decrypt_encrypt := decrypt_encrypt;
  JSON_parse_atob_stringify := parse_stringify
|}.

End Demo.

End Crypto.

(* ===================================================================== *)
(** * 3. Vault session manager: the [useVault] hook                       *)
(* ===================================================================== *)

(** [WalletData] of [src/types.ts]; [metadata] is an open map from
    attribute keys to strings and may be absent. *)
Module WalletData.
Record t := Make {
  id : string;
  name : string;
  address : string;
  encryptedPrivateKey : string;
  metadata : option (gmap string string);
  createdAt : Z
}.
End WalletData.

Inductive AttributeType := AttrText | AttrSelect | AttrDate.

Module AttributeDefinition.
Record t := Make {
  key : string;
  label : string;
  type : AttributeType;
  options : option (list string)
}.
End AttributeDefinition.

Module VaultSettings.
Record t := Make {
  autoLockMinutes : Z;
  enableLogging : bool;
  attributeDefinitions : list AttributeDefinition.t
}.
End VaultSettings.

(** [Partial<VaultSettings>]: a settings object in which any field may be
    missing, as in an argument of [updateSettings] or in a store written
    before a field existed. *)
Module PartialSettings.
Record t := Make {
  autoLockMinutes : option Z;
  enableLogging : option bool;
  attributeDefinitions : option (list AttributeDefinition.t)
}.

Definition of_settings (s : VaultSettings.t) : t :=
  Make (Some (VaultSettings.autoLockMinutes s))
       (Some (VaultSettings.enableLogging s))
       (Some (VaultSettings.attributeDefinitions s)).

(** The object spread [{ ...base, ...over }]. *)
Definition spread (base : VaultSettings.t) (over : t) : VaultSettings.t :=
  VaultSettings.Make
    (default (VaultSettings.autoLockMinutes base) (autoLockMinutes over))
    (default (VaultSettings.enableLogging base) (enableLogging over))
    (default (VaultSettings.attributeDefinitions base) (attributeDefinitions over)).
End PartialSettings.

(** The persisted unit, as [JSON.parse] delivers it. *)
Module VaultStore.
Record t := Make {
  wallets : list WalletData.t;
  masterHash : string;
  settings : PartialSettings.t;
  checksum : string
}.
End VaultStore.

Module Vault.

Definition STORAGE_KEY : string := "falconvault_v1_store".

Definition DEFAULT_SETTINGS : VaultSettings.t :=
  VaultSettings.Make 15 true
    [AttributeDefinition.Make "notes" "Notes" AttrText None].

(** The [wallets] member of a parsed backup: missing or falsy, present
    but not an array, or an array of wallets. *)
Inductive BackupWallets :=
| WalletsMissing
| WalletsNotArray
| WalletsArray (ws : list WalletData.t).

Record Backup := MkBackup {
  backup_wallets : BackupWallets;
  backup_settings : option PartialSettings.t
}.

(** What the hook uses of the platform: SHA-256 rendered in hexadecimal
    (over the UTF-8 bytes of a string), and JSON for the data that is
    hashed, for the stored unit and for backups.  A digest has 64
    hexadecimal digits, the JSON text of a store is not empty, and parsing
    it gives the store back. *)
Class Platform := {
  SHA256_hex : string -> string;
  JSON_stringify_data : list WalletData.t -> PartialSettings.t -> string;
  JSON_stringify_store : VaultStore.t -> string;
  JSON_parse_store : string -> option VaultStore.t;
  JSON_parse_backup : string -> Result Backup;
  SHA256_hex_length : forall s, String.length (SHA256_hex s) = 64%nat;
  JSON_stringify_store_nonempty : forall st, JSON_stringify_store st <> "";
  JSON_parse_stringify_store : forall st,
    JSON_parse_store (JSON_stringify_store st) = Some st
}.

Inductive ConsoleEntry :=
| console_warn (msg : string)
| console_error (msg : string).

(** The state cells of the hook. *)
Record HookState := MkHookState {
  isLocked : bool;
  hasVault : bool;
  wallets : list WalletData.t;
  settings : VaultSettings.t;
  masterPassword : string;
  loading : bool
}.

(** The hook state, the entry of [localStorage] under [STORAGE_KEY]
    ([None] when the key is unset) and the console output so far. *)
Record World := MkWorld {
  hook : HookState;
  localStorage : option string;
  console : list ConsoleEntry
}.

Definition set_hook (f : HookState -> HookState) (w : World) : World :=
  MkWorld (f (hook w)) (localStorage w) (console w).

Definition setIsLocked (b : bool) : World -> World :=
  set_hook (fun h => MkHookState b (hasVault h) (wallets h) (settings h) (masterPassword h) (loading h)).
Definition setHasVault (b : bool) : World -> World :=
  set_hook (fun h => MkHookState (isLocked h) b (wallets h) (settings h) (masterPassword h) (loading h)).
Definition setWallets (ws : list WalletData.t) : World -> World :=
  set_hook (fun h => MkHookState (isLocked h) (hasVault h) ws (settings h) (masterPassword h) (loading h)).
Definition setSettings (s : VaultSettings.t) : World -> World :=
  set_hook (fun h => MkHookState (isLocked h) (hasVault h) (wallets h) s (masterPassword h) (loading h)).
Definition setMasterPassword (p : string) : World -> World :=
  set_hook (fun h => MkHookState (isLocked h) (hasVault h) (wallets h) (settings h) p (loading h)).
Definition setLoading (b : bool) : World -> World :=
  set_hook (fun h => MkHookState (isLocked h) (hasVault h) (wallets h) (settings h) (masterPassword h) b).

Definition localStorage_setItem (v : string) (w : World) : World :=
  MkWorld (hook w) (Some v) (console w).

Definition console_log (e : ConsoleEntry) (w : World) : World :=
  MkWorld (hook w) (localStorage w) (console w ++ [e]).

(** A string is truthy when it is not empty. *)
Definition truthy (s : string) : bool := negb (String.eqb s "").

Definition initial_hook : HookState :=
  MkHookState true false [] DEFAULT_SETTINGS "" true.

Section WithPlatform.
Context {platform : Platform}.

Definition hashPassword (password : string) : string := SHA256_hex password.

Definition generateIntegrityHash (ws : list WalletData.t)
    (s : PartialSettings.t) : string :=
  SHA256_hex (JSON_stringify_data ws s).

(** The mount effect: [hasVault] is set when the key holds a non-empty
    string. *)
Definition initialize (w : World) : World :=
  let w :=
    match localStorage w with
    | Some stored => if truthy stored then setHasVault true w else w
    | None => w
    end in
  setLoading false w.

Definition persist (newWallets : list WalletData.t)
    (newSettings : VaultSettings.t) (passHash : string) (w : World) : World :=
  let data_settings := PartialSettings.of_settings newSettings in
  let checksum := generateIntegrityHash newWallets data_settings in
  let store := VaultStore.Make newWallets passHash data_settings checksum in
  localStorage_setItem (JSON_stringify_store store) w.

Definition createVault (password : string) (w : World) : World :=
  let hash := hashPassword password in
  let current := settings (hook w) in
  let w := setMasterPassword password w in
  let w := setIsLocked false w in
  let w := setHasVault true w in
  let w := setWallets [] w in
  persist [] current hash w.

Definition integrity_warning : string :=
  "Vault Integrity Warning: Data might have been tampered with externally.".

Definition unlockVault (password : string) (w : World) : bool * World :=
  match localStorage w with
  | None => (false, w)
  | Some stored =>
      if negb (truthy stored) then (false, w)
      else
        match JSON_parse_store stored with
        | None => (false, console_log (console_error "Vault corruption") w)
        | Some parsed =>
            let inputHash := hashPassword password in
            if String.eqb (VaultStore.masterHash parsed) inputHash then
              let calculatedChecksum :=
                generateIntegrityHash (VaultStore.wallets parsed)
                                      (VaultStore.settings parsed) in
              let w :=
                if truthy (VaultStore.checksum parsed)
                   && negb (String.eqb (VaultStore.checksum parsed) calculatedChecksum)
                then console_log (console_warn integrity_warning) w
                else w in
              let w := setWallets (VaultStore.wallets parsed) w in
              let w := setSettings
                         (PartialSettings.spread DEFAULT_SETTINGS
                            (VaultStore.settings parsed)) w in
              let w := setMasterPassword password w in
              let w := setIsLocked false w in
              (true, w)
            else (false, w)
        end
  end.

Definition lockVault (w : World) : World :=
  setIsLocked true (setMasterPassword "" w).

Definition addWallet (wallet : WalletData.t) (w : World) : World :=
  let newWallets := wallets (hook w) ++ [wallet] in
  let current := settings (hook w) in
  let w := setWallets newWallets w in
  let hash := hashPassword (masterPassword (hook w)) in
  persist newWallets current hash w.

Definition removeWallet (id : string) (w : World) : World :=
  let newWallets := filter (fun x => WalletData.id x <> id) (wallets (hook w)) in
  let current := settings (hook w) in
  let w := setWallets newWallets w in
  let hash := hashPassword (masterPassword (hook w)) in
  persist newWallets current hash w.

(** [{ ...w, metadata: { ...w.metadata, ...metadata } }] *)
Definition with_metadata (metadata : gmap string string) (x : WalletData.t)
    : WalletData.t :=
  WalletData.Make (WalletData.id x) (WalletData.name x) (WalletData.address x)
    (WalletData.encryptedPrivateKey x)
    (Some (metadata ∪ default ∅ (WalletData.metadata x)))
    (WalletData.createdAt x).

Definition updateWalletMetadata (id : string) (metadata : gmap string string)
    (w : World) : World :=
  let newWallets :=
    map (fun x => if String.eqb (WalletData.id x) id
                  then with_metadata metadata x else x)
        (wallets (hook w)) in
  let current := settings (hook w) in
  let w := setWallets newWallets w in
  let hash := hashPassword (masterPassword (hook w)) in
  persist newWallets current hash w.

Definition updateSettings (newSettings : PartialSettings.t) (w : World) : World :=
  let updated := PartialSettings.spread (settings (hook w)) newSettings in
  let current := wallets (hook w) in
  let w := setSettings updated w in
  let hash := hashPassword (masterPassword (hook w)) in
  persist current updated hash w.

Inductive ImportResult :=
| ImportSuccess (count : nat)
| ImportFailure (error : Error).

Definition importVaultData (jsonString : string) (currentPassword : string)
    (w : World) : ImportResult * World :=
  match JSON_parse_backup jsonString with
  | Throw e => (ImportFailure e, w)
  | Ok backup =>
      match backup_wallets backup with
      | WalletsMissing | WalletsNotArray =>
          (ImportFailure (MkError "Invalid format"), w)
      | WalletsArray backupWallets =>
          let currentIds : gset string :=
            list_to_set (map WalletData.id (wallets (hook w))) in
          let toAdd :=
            filter (fun x => WalletData.id x ∉ currentIds) backupWallets in
          let newWallets := wallets (hook w) ++ toAdd in
          let current := settings (hook w) in
          let w := setWallets newWallets w in
          let hash := hashPassword currentPassword in
          let w := persist newWallets current hash w in
          (ImportSuccess (length toAdd), w)
      end
  end.

(** The calls a client of the hook can make. *)
Inductive Operation :=
| OpCreateVault (password : string)
| OpUnlockVault (password : string)
| OpLockVault
| OpAddWallet (wallet : WalletData.t)
| OpRemoveWallet (id : string)
| OpUpdateWalletMetadata (id : string) (metadata : gmap string string)
| OpUpdateSettings (newSettings : PartialSettings.t)
| OpImportVaultData (jsonString : string) (currentPassword : string).

Definition run_operation (op : Operation) (w : World) : World :=
  match op with
  | OpCreateVault password => createVault password w
  | OpUnlockVault password => snd (unlockVault password w)
  | OpLockVault => lockVault w
  | OpAddWallet wallet => addWallet wallet w
  | OpRemoveWallet id => removeWallet id w
  | OpUpdateWalletMetadata id metadata => updateWalletMetadata id metadata w
  | OpUpdateSettings newSettings => updateSettings newSettings w
  | OpImportVaultData jsonString currentPassword =>
      snd (importVaultData jsonString currentPassword w)
  end.

Definition run (ops : list Operation) (w : World) : World :=
  fold_left (fun w op => run_operation op w) ops w.

(** The store a later [unlockVault] would read: the parsed content of
    the storage entry, when there is a non-empty entry that parses. *)
Definition persisted_store (w : World) : option VaultStore.t :=
  match localStorage w with
  | None => None
  | Some stored => if truthy stored then JSON_parse_store stored else None
  end.

(** The integrity check of [unlockVault], as a predicate on a store. *)
Definition verifyIntegrity (st : VaultStore.t) : bool :=
  String.eqb (VaultStore.checksum st)
    (generateIntegrityHash (VaultStore.wallets st) (VaultStore.settings st)).

End WithPlatform.

End Vault.

(** ** An executable platform for the vault
    JSON texts are stood in for by an injective text encoding of the value
    (a brace followed by the binary digits of its code), and SHA-256 by a
    256-bit polynomial checksum. *)
Module VaultDemo.
Import Vault.

Fixpoint bits (p : positive) : string :=
  match p with
  | xH => EmptyString
  | xO q => String "0" (bits q)
  | xI q => String "1" (bits q)
  end.

Fixpoint unbits (s : string) : option positive :=
  match s with
  | EmptyString => Some xH
  | String c r =>
      match unbits r with
      | Some q =>
          if Ascii.eqb c "0" then Some (xO q)
          else if Ascii.eqb c "1" then Some (xI q)
          else None
      | None => None
      end
  end.

Definition print `{Countable A} (x : A) : string :=
  String "{" (bits (encode x)).

Definition read `{Countable A} (s : string) : option A :=
  match s with
  | String c r => if Ascii.eqb c "{" then unbits r ≫= decode else None
  | EmptyString => None
  end.

Lemma unbits_bits (p : positive) : unbits (bits p) = Some p.
Proof. induction p as [q IH | q IH |]; cbn; rewrite ?IH; reflexivity. Qed.

Lemma read_print `{Countable A} (x : A) : read (print x) = Some x.
Proof.
  unfold read, print. cbn. rewrite unbits_bits. cbn. apply decode_encode.
Qed.

Definition hex_digit (d : Z) : ascii :=
  nth (Z.to_nat d) (list_ascii_of_string "0123456789abcdef") "0"%char.

(** The [n] low hexadecimal digits of [z], most significant first. *)
Fixpoint hex (n : nat) (z : Z) : list ascii :=
  match n with
  | O => []
  | S k => hex k (z / 16) ++ [hex_digit (z mod 16)]
  end.

Definition mix (acc : Z) (c : ascii) : Z :=
  (acc * 131 + Z.of_N (N_of_ascii c) + 7) mod 2 ^ 256.

(** A 256-bit polynomial checksum of the characters, in hexadecimal. *)
Definition digest (s : string) : string :=
  string_of_list_ascii (hex 64 (fold_left mix (list_ascii_of_string s) 5381)).

Lemma length_string_of_list_ascii (l : list ascii) :
  String.length (string_of_list_ascii l) = length l.
Proof. induction l as [| a l IH]; cbn; [reflexivity | now rewrite IH]. Qed.

Lemma length_hex (n : nat) (z : Z) : length (hex n z) = n.
Proof.
  revert z. induction n as [| k IH]; intros z; [reflexivity |].
  cbn [hex]. rewrite length_app, IH. cbn. lia.
Qed.

Lemma digest_length (s : string) : String.length (digest s) = 64%nat.
Proof. unfold digest. now rewrite length_string_of_list_ascii, length_hex. Qed.

#[export] Instance AttributeType_eq_dec : EqDecision AttributeType.
Proof. solve_decision. Defined.
#[export] Instance AttributeType_countable : Countable AttributeType :=
  inj_countable'
    (fun t => match t with AttrText => 0%nat | AttrSelect => 1%nat | AttrDate => 2%nat end)
    (fun n => match n with O => AttrText | S O => AttrSelect | _ => AttrDate end)
    (fun t => match t with AttrText | AttrSelect | AttrDate => eq_refl end).

#[export] Instance AttributeDefinition_eq_dec : EqDecision AttributeDefinition.t.
Proof. solve_decision. Defined.
#[export] Instance AttributeDefinition_countable : Countable AttributeDefinition.t :=
  inj_countable'
    (fun d => (AttributeDefinition.key d, AttributeDefinition.label d,
               AttributeDefinition.type d, AttributeDefinition.options d))
    (fun '(k, l, t, o) => AttributeDefinition.Make k l t o)
    (fun d => match d with AttributeDefinition.Make _ _ _ _ => eq_refl end).

#[export] Instance PartialSettings_eq_dec : EqDecision PartialSettings.t.
Proof. solve_decision. Defined.
#[export] Instance PartialSettings_countable : Countable PartialSettings.t :=
  inj_countable'
    (fun p => (PartialSettings.autoLockMinutes p, PartialSettings.enableLogging p,
               PartialSettings.attributeDefinitions p))
    (fun '(a, e, d) => PartialSettings.Make a e d)
    (fun p => match p with PartialSettings.Make _ _ _ => eq_refl end).

#[export] Instance WalletData_eq_dec : EqDecision WalletData.t.
Proof. solve_decision. Defined.
#[export] Instance WalletData_countable : Countable WalletData.t :=
  inj_countable'
    (fun x => (WalletData.id x, WalletData.name x, WalletData.address x,
               WalletData.encryptedPrivateKey x, WalletData.metadata x,
               WalletData.createdAt x))
    (fun '(i, n, a, k, m, c) => WalletData.Make i n a k m c)
    (fun x => match x with WalletData.Make _ _ _ _ _ _ => eq_refl end).

#[export] Instance VaultStore_eq_dec : EqDecision VaultStore.t.
Proof. solve_decision. Defined.
#[export] Instance VaultStore_countable : Countable VaultStore.t :=
  inj_countable'
    (fun st => (VaultStore.wallets st, VaultStore.masterHash st,
                VaultStore.settings st, VaultStore.checksum st))
    (fun '(ws, h, s, c) => VaultStore.Make ws h s c)
    (fun st => match st with VaultStore.Make _ _ _ _ => eq_refl end).

#[export] Instance BackupWallets_eq_dec : EqDecision BackupWallets.
Proof. solve_decision. Defined.
#[export] Instance BackupWallets_countable : Countable BackupWallets :=
  inj_countable'
    (fun b => match b with
              | WalletsMissing => inl false
              | WalletsNotArray => inl true
              | WalletsArray ws => inr ws
              end)
    (fun x => match x with
              | inl false => WalletsMissing
              | inl true => WalletsNotArray
              | inr ws => WalletsArray ws
              end)
    (fun b => match b with
              | WalletsMissing | WalletsNotArray | WalletsArray _ => eq_refl
              end).

#[export] Instance Backup_eq_dec : EqDecision Backup.
Proof. solve_decision. Defined.
#[export] Instance Backup_countable : Countable Backup :=
  inj_countable'
    (fun b => (backup_wallets b, backup_settings b))
    (fun '(ws, s) => MkBackup ws s)
    (fun b => match b with MkBackup _ _ => eq_refl end).

Definition stringify_backup (b : Backup) : string := print b.

Definition parse_backup (s : string) : Result Backup :=
  match read s with
  | Some b => Ok b
  | None => Throw (MkError "Unexpected token in JSON")
  end.

Lemma parse_stringify_backup (b : Backup) : parse_backup (stringify_backup b) = Ok b.
Proof. unfold parse_backup, stringify_backup. now rewrite read_print. Qed.

Lemma print_nonempty `{Countable A} (x : A) : print x <> "".
Proof. discriminate. Qed.

#[export] Instance platform : Platform := {|
  SHA256_hex := digest;
  JSON_stringify_data := fun ws s => print (ws, s);
  JSON_stringify_store := print;
  JSON_parse_store := read;
  JSON_parse_backup := parse_backup;
  SHA256_hex_length := digest_length;
  JSON_stringify_store_nonempty := print_nonempty;
  JSON_parse_stringify_store := read_print
|}.

End VaultDemo.

(* ===================================================================== *)
(** * 4. Network access layer                                             *)
(* ===================================================================== *)

(** A value of type [any] that came out of [JSON.parse]; the members of
    an object have distinct keys. *)
#[warnings="-register-all"]
Inductive JSON : Type :=
| JNull
| JBool (b : bool)
| JNumber (z : Z)
| JString (s : string)
| JArray (items : list JSON)
| JObject (members : list (string * JSON)).

Module Network.

(** The result of reading [table[key]] on an object literal: an own
    property, a property inherited from [Object.prototype] (a function or
    an object, in any case truthy and not iterable), or [undefined]. *)
Inductive Property (A : Type) : Type :=
| Own (a : A)
| Inherited
| Undefined.
Arguments Own {A} a.
Arguments Inherited {A}.
Arguments Undefined {A}.

Definition Object_prototype_keys : list string :=
  ["constructor"; "__proto__"; "hasOwnProperty"; "isPrototypeOf";
   "propertyIsEnumerable"; "toLocaleString"; "toString"; "valueOf";
   "__defineGetter__"; "__defineSetter__"; "__lookupGetter__";
   "__lookupSetter__"].

Fixpoint own_property {A : Type} (table : list (string * A)) (key : string)
    : option A :=
  match table with
  | [] => None
  | (k, v) :: rest => if String.eqb k key then Some v else own_property rest key
  end.

Definition get_property {A : Type} (table : list (string * A)) (key : string)
    : Property A :=
  match own_property table key with
  | Some v => Own v
  | None =>
      if existsb (String.eqb key) Object_prototype_keys then Inherited
      else Undefined
  end.

Definition NETWORKS : list (string * list string) :=
  [("mainnet", ["https://eth.llamarpc.com"; "https://rpc.ankr.com/eth";
                "https://1rpc.io/eth"; "https://cloudflare-eth.com"]);
   ("arbitrum", ["https://arb1.arbitrum.io/rpc"; "https://rpc.ankr.com/arbitrum";
                 "https://1rpc.io/arb"]);
   ("optimism", ["https://mainnet.optimism.io"; "https://rpc.ankr.com/optimism";
                 "https://optimism.llamarpc.com"]);
   ("polygon", ["https://polygon-rpc.com"; "https://rpc.ankr.com/polygon";
                "https://1rpc.io/matic"]);
   ("base", ["https://mainnet.base.org"; "https://base.llamarpc.com";
             "https://1rpc.io/base"]);
   ("zksync", ["https://mainnet.era.zksync.io"; "https://1rpc.io/zksync2-era"]);
   ("linea", ["https://rpc.linea.build"; "https://1rpc.io/linea"]);
   ("sepolia", ["https://rpc.ankr.com/eth_sepolia"; "https://1rpc.io/sepolia"])].

Record Tokens := MkTokens { usdt : option string; usdc : option string }.

Definition TOKEN_ADDRESSES : list (string * Tokens) :=
  [("mainnet", MkTokens (Some "0xdac17f958d2ee523a2206206994597c13d831ec7")
                        (Some "0xa0b86991c6218b36c1d19d4a2e9eb0ce3606eb48"));
   ("arbitrum", MkTokens (Some "0xFd086bC7CD5C481DCC9C85ebE478A1C0b69FCbb9")
                         (Some "0xaf88d065e77c8cC2239327C5EDb3A432268e5831"));
   ("optimism", MkTokens (Some "0x94b008aA00579c1307B0EF2c499aD98a8ce98748")
                         (Some "0x0b2C630C5307324423542016988782fC8f48345e"));
   ("polygon", MkTokens (Some "0xc2132D05D31c914a87C6611C10748AEb04B58e8F")
                        (Some "0x3c499c542cEF5E3811e1192ce70d8cC03d5c3359"));
   ("base", MkTokens None (Some "0x833589fCD6eDb6E08f4c7C32D4f71b54bdA02913"));
   ("zksync", MkTokens None (Some "0x3355df6D4c9C3035724Fd0e3914dE96A5a83aaf4"));
   ("linea", MkTokens None (Some "0x176211869cA2b568f2A7D4EE941E073a821EE1ff"))].

(** A promise that settles: with what, and how many milliseconds after
    it was created. *)
Record Settled (A : Type) := MkSettled { outcome : Result A; at_ms : Z }.
Arguments MkSettled {A} outcome at_ms.
Arguments outcome {A} s.
Arguments at_ms {A} s.

Record AssetValues := MkAssetValues {
  eth : string;
  wei : Z;
  asset_usdt : string;
  asset_usdc : string
}.

Record LogEntry := MkLogEntry {
  log_message : string;
  log_type : string;
  log_source : string
}.

(** What the layer uses of its surroundings: [String.prototype.toLowerCase],
    the JSON-RPC endpoints (each request may change the state of the
    network), and from ethers [formatUnits] with the two comparisons that
    [formatValue] makes on the parsed number. *)
Class Environment := {
  NetState : Type;
  toLowerCase : string -> string;
  getNetwork : string -> NetState -> Result unit * NetState;
  getBalance : string -> string -> NetState -> Settled Z * NetState;
  balanceOf : string -> string -> string -> NetState -> Settled Z * NetState;
  call : string -> JSON -> NetState -> Result string * NetState;
  provider_estimateGas : string -> JSON -> NetState -> Result Z * NetState;
  getTransactionCount : string -> string -> NetState -> Result Z * NetState;
  provider_broadcastTransaction : string -> string -> NetState -> Result string * NetState;
  formatUnits : Z -> Z -> string;
  parseFloat_is_zero : string -> bool;
  parseFloat_below_0_0001 : string -> bool
}.

(** Pieces of a string between the occurrences of a character. *)
Fixpoint split_on (c : ascii) (s : string) : list string :=
  match s with
  | EmptyString => [EmptyString]
  | String a rest =>
      if Ascii.eqb a c then EmptyString :: split_on c rest
      else
        match split_on c rest with
        | piece :: pieces => String a piece :: pieces
        | [] => [String a EmptyString]
        end
  end.

Section WithEnvironment.
Context {env : Environment}.

(** The network and the system log. *)
Record World := MkWorld { net : NetState; logged : list LogEntry }.

Definition logger_log (message type source : string) (w : World) : World :=
  MkWorld (net w) (logged w ++ [MkLogEntry message type source]).

(** [formatValue]; its [catch] is unreachable, [formatUnits] accepting
    every amount for the two numbers of decimals in use. *)
Definition formatValue (val : Z) (decimals : Z) : string :=
  let formatted := formatUnits val decimals in
  if parseFloat_is_zero formatted then "0.00"
  else if parseFloat_below_0_0001 formatted then "< 0.0001"
  else
    match split_on "." formatted with
    | whole :: fraction :: _ => whole ++ "." ++ substring 0 4 fraction
    | _ => formatted
    end.

(** The body of the [try] in [fetchWithRetry]: the provider is made and
    its network checked ([getNetwork] stands for both), then the callback
    runs. *)
Definition attempt {A : Type} (callback : string -> NetState -> Result A * NetState)
    (url : string) (n : NetState) : Result A * NetState :=
  match getNetwork url n with
  | (Throw e, n1) => (Throw e, n1)
  | (Ok _, n1) => callback url n1
  end.

(** The loop of [fetchWithRetry].  Next to the result it returns the
    attempts made, in order, each with its endpoint and outcome. *)
Fixpoint fetchWithRetry_from {A : Type} (urls : list string)
    (callback : string -> NetState -> Result A * NetState)
    (lastError : option Error) (n : NetState)
    : list (string * Result A) * Result A * NetState :=
  match urls with
  | [] => ([], Throw (default (MkError "All RPCs failed") lastError), n)
  | url :: rest =>
      match attempt callback url n with
      | (Ok v, n1) => ([(url, Ok v)], Ok v, n1)
      | (Throw e, n1) =>
          let '(attempts, result, n2) := fetchWithRetry_from rest callback (Some e) n1 in
          ((url, Throw e) :: attempts, result, n2)
      end
  end.

Definition fetchWithRetry {A : Type} (urls : list string)
    (callback : string -> NetState -> Result A * NetState) (n : NetState)
    : list (string * Result A) * Result A * NetState :=
  fetchWithRetry_from urls callback None n.

(** [e.message || fallback] *)
Definition message_or (e : Error) (fallback : string) : string :=
  if String.eqb (message e) "" then fallback else message e.

Definition not_iterable : Error := MkError "urls is not iterable".

(** The common shape of [ethCall], [estimateGas], [fetchNonce] and
    [broadcastTransaction]. *)
Definition with_network {A : Type} (networkKey : string)
    (callback : string -> NetState -> Result A * NetState)
    (failure_log : string) (fallback : string) (w : World) : Result A * World :=
  match get_property NETWORKS (toLowerCase networkKey) with
  | Undefined =>
      (Throw (MkError ("Unsupported network key: " ++ networkKey)), w)
  | Inherited =>
      let msg := message_or not_iterable fallback in
      (Throw not_iterable,
       logger_log (failure_log ++ networkKey ++ ": " ++ msg) "error" "RPC" w)
  | Own rpcUrls =>
      match fetchWithRetry rpcUrls callback (net w) with
      | (_, Ok v, n) => (Ok v, MkWorld n (logged w))
      | (_, Throw e, n) =>
          let msg := message_or e fallback in
          (Throw e,
           logger_log (failure_log ++ networkKey ++ ": " ++ msg) "error" "RPC"
             (MkWorld n (logged w)))
      end
  end.

Definition ethCall (tx : JSON) (networkKey : string) : World -> Result string * World :=
  with_network networkKey (fun url => call url tx)
    "Call failed on " "eth_call failed".

Definition estimateGas (tx : JSON) (networkKey : string) : World -> Result Z * World :=
  with_network networkKey (fun url => provider_estimateGas url tx)
    "Estimate Gas failed on " "estimateGas failed".

Definition fetchNonce (address : string) (networkKey : string)
    : World -> Result Z * World :=
  with_network networkKey (fun url => getTransactionCount url address)
    "Nonce fetch failed on " "Fetch Nonce failed".

Definition broadcastTransaction (rawTx : string) (networkKey : string)
    : World -> Result string * World :=
  with_network networkKey (fun url => provider_broadcastTransaction url rawTx)
    "Broadcast failed on " "Broadcast failed".

(** [Promise.race([query, timeoutPromise])] with the timer at 5000 ms:
    the query wins when it settles before the timer fires (a query that
    settles at the very millisecond of the timer counts as late). *)
Definition race_timeout (query : Settled Z) : Settled Z :=
  if at_ms query <? 5000 then query
  else MkSettled (Throw (MkError "RPC Timeout")) 5000.

(** [promise.catch(() => BigInt(0))] *)
Definition catch_zero (p : Settled Z) : Settled Z :=
  match outcome p with
  | Ok _ => p
  | Throw _ => MkSettled (Ok 0) (at_ms p)
  end.

(** A token balance: [Promise.resolve(BigInt(0))] when the network has no
    such token, the guarded [balanceOf] otherwise. *)
Definition token_balance (token : option string) (url address : string)
    (n : NetState) : Settled Z * NetState :=
  match token with
  | Some contract =>
      if String.eqb contract "" then (MkSettled (Ok 0) 0, n)
      else let '(p, n1) := balanceOf url contract address n in (catch_zero p, n1)
  | None => (MkSettled (Ok 0) 0, n)
  end.

(** [Promise.all] over the three balances: the first rejection, or all
    three values once the last has arrived. *)
Definition all3 (a b c : Settled Z) : Settled (Z * Z * Z) :=
  match outcome a, outcome b, outcome c with
  | Ok x, Ok y, Ok z => MkSettled (Ok (x, y, z)) (Z.max (at_ms a) (Z.max (at_ms b) (at_ms c)))
  | _, _, _ =>
      let rejections :=
        flat_map (fun p => match outcome p with
                           | Throw e => [(at_ms p, e)]
                           | Ok _ => []
                           end) [a; b; c] in
      let first :=
        fold_left (fun best r => if fst r <? fst best then r else best)
                  (tl rejections) (hd (0, MkError "") rejections) in
      MkSettled (Throw (snd first)) (fst first)
  end.

(** The callback that [fetchBalance] hands to [fetchWithRetry]: one
    attempt on one endpoint. *)
Definition fetchBalance_attempt (tokens : Tokens) (address : string)
    (url : string) (n : NetState) : Settled AssetValues * NetState :=
  let '(ethQuery, n1) := getBalance url address n in
  let ethBalancePromise := race_timeout ethQuery in
  let '(usdtPromise, n2) := token_balance (usdt tokens) url address n1 in
  let '(usdcPromise, n3) := token_balance (usdc tokens) url address n2 in
  let all := all3 ethBalancePromise usdtPromise usdcPromise in
  (MkSettled
     (match outcome all with
      | Ok (ethBal, usdtBal, usdcBal) =>
          Ok (MkAssetValues (formatValue ethBal 18) ethBal
                (formatValue usdtBal 6) (formatValue usdcBal 6))
      | Throw e => Throw e
      end)
     (at_ms all),
   n3).

Definition awaited {A : Type} (p : Settled A * NetState) : Result A * NetState :=
  (outcome (fst p), snd p).

(** The [catch] of [fetchBalance]: the failure is logged unless its
    message mentions a rate limit. *)
Definition scan_failed (networkKey : string) (e : Error) (w : World) : World :=
  let msg := message_or e "Unknown Error" in
  if includes msg "rate limit" then w
  else logger_log ("Scanning failed for " ++ networkKey ++ ": " ++ msg)
         "warning" "RPC" w.

(** [fetchBalance] once the endpoint list and the token set are chosen;
    the string ['Error'] is [None]. *)
Definition fetchBalance_on (rpcUrls : list string) (tokens : Tokens)
    (address networkKey : string) (w : World) : option AssetValues * World :=
  match fetchWithRetry rpcUrls
          (fun url n => awaited (fetchBalance_attempt tokens address url n))
          (net w) with
  | (_, Ok v, n) => (Some v, MkWorld n (logged w))
  | (_, Throw e, n) => (None, scan_failed networkKey e (MkWorld n (logged w)))
  end.

Definition fetchBalance (address : string) (networkKey : string) (w : World)
    : option AssetValues * World :=
  let tokens :=
    match get_property TOKEN_ADDRESSES (toLowerCase networkKey) with
    | Own t => t
    | _ => MkTokens None None
    end in
  match get_property NETWORKS (toLowerCase networkKey) with
  | Own rpcUrls => fetchBalance_on rpcUrls tokens address networkKey w
  | Inherited => (None, scan_failed networkKey not_iterable w)
  | Undefined =>
      match get_property NETWORKS "mainnet" with
      | Own rpcUrls => fetchBalance_on rpcUrls tokens address networkKey w
      | _ => (None, scan_failed networkKey not_iterable w)
      end
  end.

End WithEnvironment.

End Network.

(** ** An executable environment for the network layer
    Only the fourth mainnet endpoint answers; the USDT contract reverts; the
    balance of "0xslow" takes nine seconds and that of "0xbad" is refused. *)
Module NetworkDemo.
Import Network.

Definition lower (a : ascii) : ascii :=
  let n := N_of_ascii a in
  if ((65 <=? n) && (n <=? 90))%N then ascii_of_N (n + 32) else a.

Fixpoint ascii_toLowerCase (s : string) : string :=
  match s with
  | EmptyString => EmptyString
  | String a rest => String (lower a) (ascii_toLowerCase rest)
  end.

Definition digit (d : Z) : ascii := ascii_of_N (48 + Z.to_N d).

(** The [n] low decimal digits of [z], most significant first. *)
Fixpoint digits (n : nat) (z : Z) : list ascii :=
  match n with
  | O => []
  | S k => digits k (z / 10) ++ [digit (z mod 10)]
  end.

Fixpoint strip_zeros (rev_digits : list ascii) : list ascii :=
  match rev_digits with
  | a :: rest => if Ascii.eqb a "0" then strip_zeros rest else rev_digits
  | [] => []
  end.

(** Number of decimal digits of a non-negative number (at least one). *)
Fixpoint width (fuel : nat) (z : Z) : nat :=
  match fuel with
  | O => 1
  | S k => if z <? 10 then 1 else S (width k (z / 10))
  end.

Definition decimal (z : Z) : string :=
  string_of_list_ascii (digits (width 80 z) z).

(** [formatUnits] on a non-negative amount: the whole part, a point, and
    the fraction without trailing zeros (one digit at least). *)
Definition demo_formatUnits (val decimals : Z) : string :=
  let unit := 10 ^ decimals in
  let fraction := rev (strip_zeros (rev (digits (Z.to_nat decimals) (val mod unit)))) in
  decimal (val / unit) ++ "."
    ++ string_of_list_ascii (match fraction with [] => ["0"%char] | _ => fraction end).

Definition all_zero (s : string) : bool :=
  forallb (fun a => Ascii.eqb a "0" || Ascii.eqb a ".") (list_ascii_of_string s).

Definition below_0_0001 (s : string) : bool :=
  match split_on "." s with
  | whole :: fraction :: _ =>
      all_zero whole && all_zero (substring 0 4 (fraction ++ "0000"))
  | _ => all_zero s
  end.

Definition refused : Error := MkError "connect ECONNREFUSED".

#[export] Instance environment : Environment := {|
  NetState := unit;
  toLowerCase := ascii_toLowerCase;
  getNetwork := fun url n =>
    if String.eqb url "https://cloudflare-eth.com" then (Ok tt, n)
    else (Throw refused, n);
  getBalance := fun url address n =>
    if String.eqb address "0xslow" then (MkSettled (Ok 5) 9000, n)
    else if String.eqb address "0xbad" then (MkSettled (Throw (MkError "bad address")) 50, n)
    else (MkSettled (Ok 1230000000000000000) 120, n);
  balanceOf := fun url contract owner n =>
    if String.eqb contract "0xdac17f958d2ee523a2206206994597c13d831ec7"
    then (MkSettled (Throw (MkError "execution reverted")) 80, n)
    else (MkSettled (Ok 2500000) 300, n);
  call := fun url tx n => (Ok "0x01", n);
  provider_estimateGas := fun url tx n => (Ok 21000, n);
  getTransactionCount := fun url address n => (Ok 7, n);
  provider_broadcastTransaction := fun url raw n => (Ok "0xfeed", n);
  formatUnits := demo_formatUnits;
  parseFloat_is_zero := all_zero;
  parseFloat_below_0_0001 := below_0_0001
|}.

Definition idle : @NetState environment := tt.

Definition quiet : World := MkWorld idle [].

End NetworkDemo.

(* ===================================================================== *)
(** * 5. Signing operations and the request dispatcher                    *)
(* ===================================================================== *)

Module Signer.

(** Truthiness of a parsed value; [None] stands for [undefined]. *)
Definition truthy (v : option JSON) : bool :=
  match v with
  | None | Some JNull => false
  | Some (JBool b) => b
  | Some (JNumber z) => negb (z =? 0)
  | Some (JString s) => negb (String.eqb s "")
  | Some (JArray _) | Some (JObject _) => true
  end.

Fixpoint member (members : list (string * JSON)) (key : string) : option JSON :=
  match members with
  | [] => None
  | (k, v) :: rest => if String.eqb k key then Some v else member rest key
  end.

(** [value.key] for one of the member names that the sources read
    ([domain], [types], [value], [chainId]): a type error on [undefined]
    and [null], the member of an object, [undefined] on anything else. *)
Definition get (v : option JSON) (key : string) : Result (option JSON) :=
  match v with
  | None =>
      Throw (MkError ("Cannot read properties of undefined (reading '" ++ key ++ "')"))
  | Some JNull =>
      Throw (MkError ("Cannot read properties of null (reading '" ++ key ++ "')"))
  | Some (JObject members) => Ok (member members key)
  | Some _ => Ok None
  end.

(** What the sources use of ethers: the wallet made from a private key
    and its three signing methods, and the Keccak hash of a hex string. *)
Class Ethers := {
  Wallet : Type;
  Wallet_new : string -> Result Wallet;
  Wallet_address : Wallet -> string;
  Wallet_signMessage : Wallet -> option JSON -> Result string;
  Wallet_signTransaction : Wallet -> option JSON -> Result string;
  Wallet_signTypedData :
    Wallet -> option JSON -> option JSON -> option JSON -> Result string;
  keccak256 : string -> Result string
}.

(** What the component does to its surroundings. *)
Inductive Call :=
| logger_log (msg type source : string)
| decryptData_called (encrypted password : string)
| onAddWallet (wallet : WalletData.t).

(** The part of the component that a request can change: the debug log
    shown to the user, the calls made so far to the system logger, to
    [decryptData] and to [onAddWallet], and the signature kept for
    broadcasting (with the [chainId] member it was signed for). *)
Record Machine := MkMachine {
  logs : list string;
  calls : list Call;
  lastSignature : option (string * option JSON)
}.

(** Computations that change the machine and return or throw. *)
Definition M (A : Type) : Type := Machine -> Result A * Machine.

Definition ret {A : Type} (a : A) : M A := fun m => (Ok a, m).

Definition throw {A : Type} (message : string) : M A :=
  fun m => (Throw (MkError message), m).

Definition bind {A B : Type} (c : M A) (k : A -> M B) : M B :=
  fun m =>
    match c m with
    | (Ok a, m1) => k a m1
    | (Throw e, m1) => (Throw e, m1)
    end.

#[export] Instance M_ret : MRet M := @ret.
#[export] Instance M_bind : MBind M := fun A B k c => bind c k.

Definition addLog (msg : string) : M unit :=
  fun m => (Ok tt, MkMachine (logs m ++ [msg]) (calls m) (lastSignature m)).

Definition setLogs (l : list string) : M unit :=
  fun m => (Ok tt, MkMachine l (calls m) (lastSignature m)).

Definition emit (c : Call) : M unit :=
  fun m => (Ok tt, MkMachine (logs m) (calls m ++ [c]) (lastSignature m)).

Definition setLastSignature (v : option (string * option JSON)) : M unit :=
  fun m => (Ok tt, MkMachine (logs m) (calls m) v).

Definition lift {A : Type} (r : Result A) : M A := fun m => (r, m).

(** [try { body } catch (err) { handler(err) }] *)
Definition try_catch {A : Type} (body : M A) (handler : Error -> M A) : M A :=
  fun m =>
    match body m with
    | (Ok a, m1) => (Ok a, m1)
    | (Throw e, m1) => handler e m1
    end.

(** [ApiRequest] of [src/types.ts]. *)
Record ApiRequest := MkApiRequest {
  type : string;
  walletLabel : option string;
  address : option string;
  network : option string;
  payload : option JSON
}.

(** The members of [ServiceResponse] that the dispatcher itself fills. *)
Record ServiceResponse := MkServiceResponse {
  status : string;
  operation : option string;
  response_walletLabel : option string;
  signature : option string;
  signedTx : option string;
  txHash : option string;
  error : option string;
  code : option string
}.

Section WithServices.
Context {ethers : Ethers}.

(** The wallets and the password that the component receives, the
    decryption of section 2 at the level of texts, the parsing of the
    request text, and the two classes of operations that need no key: the
    vault management methods, and the chain queries on a network. *)
Variable wallets : list WalletData.t.
Variable password : string.
Variable decryptData : string -> string -> Result string.
Variable JSON_parse : string -> option ApiRequest.
Variable vault_management : ApiRequest -> M ServiceResponse.
Variable chain_query : ApiRequest -> string -> M ServiceResponse.

Definition signMessage (privateKey : string) (message : option JSON)
    : Result string :=
  match Wallet_new privateKey with
  | Throw e => Throw e
  | Ok wallet => Wallet_signMessage wallet message
  end.

Definition signTransaction (privateKey : string) (transaction : option JSON)
    : Result string :=
  match Wallet_new privateKey with
  | Throw e => Throw e
  | Ok wallet => Wallet_signTransaction wallet transaction
  end.

Definition typed_data_incomplete : Error :=
  MkError "TypedData payload must contain domain, types, and value".

Definition signTypedData (privateKey : string) (payload : option JSON)
    : Result string :=
  match Wallet_new privateKey with
  | Throw e => Throw e
  | Ok wallet =>
      match get payload "domain" with
      | Throw e => Throw e
      | Ok domain =>
          if negb (truthy domain) then Throw typed_data_incomplete
          else
            match get payload "types" with
            | Throw e => Throw e
            | Ok types =>
                if negb (truthy types) then Throw typed_data_incomplete
                else
                  match get payload "value" with
                  | Throw e => Throw e
                  | Ok value =>
                      if negb (truthy value) then Throw typed_data_incomplete
                      else Wallet_signTypedData wallet domain types value
                  end
            end
      end
  end.

(** [wallets.find(w => w.name === label)] *)
Definition find_wallet (label : string) : option WalletData.t :=
  List.find (fun w => String.eqb (WalletData.name w) label) wallets.

Definition success (request : ApiRequest) (w : WalletData.t) : ServiceResponse :=
  MkServiceResponse "success" (Some (type request)) (Some (WalletData.name w))
    None None None None None.

Definition read_only : list string :=
  ["eth_getBalance"; "eth_call"; "eth_estimateGas"; "eth_sendRawTransaction"].

(** The third class: operations that sign with a key of the vault. *)
Definition signature_method (request : ApiRequest) : M ServiceResponse :=
  let targetWallet :=
    match walletLabel request with
    | Some label => if String.eqb label "" then None else find_wallet label
    | None => None
    end in
  match targetWallet with
  | None =>
      throw ("Operation " ++ type request
             ++ " requires a valid 'walletLabel' present in the vault.")
  | Some targetWallet =>
      addLog ("Resolved Wallet Label '" ++ WalletData.name targetWallet ++ "'");;
      addLog ("Decrypting key for " ++ WalletData.name targetWallet ++ "...");;
      emit (decryptData_called (WalletData.encryptedPrivateKey targetWallet) password);;
      privateKey ← lift (decryptData (WalletData.encryptedPrivateKey targetWallet) password);
      addLog "Decryption successful.";;
      let response := success request targetWallet in
      response ←
        (if String.eqb (type request) "personal_sign" then
           addLog "Signing message...";;
           sig ← lift (signMessage privateKey (payload request));
           ret (MkServiceResponse (status response) (operation response)
                  (response_walletLabel response) (Some sig) None None None None)
         else if String.eqb (type request) "eth_signTransaction" then
           addLog "Signing transaction...";;
           sig ← lift (signTransaction privateKey (payload request));
           hash ← lift (keccak256 sig);
           chainId ← lift (get (payload request) "chainId");
           (if truthy chainId then setLastSignature (Some (sig, chainId))
            else ret tt);;
           ret (MkServiceResponse (status response) (operation response)
                  (response_walletLabel response) None (Some sig) (Some hash) None None)
         else if String.eqb (type request) "eth_signTypedData" then
           addLog "Signing typed data (EIP-712)...";;
           sig ← lift (signTypedData privateKey (payload request));
           ret (MkServiceResponse (status response) (operation response)
                  (response_walletLabel response) (Some sig) None None None None)
         else throw "Unsupported operation type");
      addLog "Signature generated successfully.";;
      emit (logger_log ("Signed " ++ type request ++ " with "
                        ++ WalletData.name targetWallet) "success" "Signer");;
      ret response
  end.

Definition errorResponse (err : Error) : ServiceResponse :=
  MkServiceResponse "error" None None None None None
    (Some (message err)) (Some "EXECUTION_ERROR").

(** [handleProcessRequest]: the debug log and the kept signature are
    reset, the request text is parsed and routed to one of the three
    classes; whatever is thrown on the way becomes an error response. *)
Definition handleProcessRequest (requestJson : string) : M ServiceResponse :=
  setLogs [];;
  setLastSignature None;;
  addLog "Received API request...";;
  try_catch
    (request ←
       match JSON_parse requestJson with
       | Some request =>
           addLog ("Payload parsed. Type: " ++ type request);; ret request
       | None => throw "Invalid JSON format."
       end;
     if String.prefix "vault_" (type request) then vault_management request
     else if existsb (String.eqb (type request)) read_only then
       let network :=
         match network request with
         | Some n => if String.eqb n "" then "mainnet" else n
         | None => "mainnet"
         end in
       addLog ("Executing Read-Only/RPC Op on " ++ network ++ "...");;
       response ← chain_query request network;
       addLog "RPC Operation Successful.";;
       ret response
     else signature_method request)
    (fun err =>
       addLog ("Error: " ++ message err);;
       emit (logger_log ("Op failed: " ++ message err) "error" "Signer");;
       ret (errorResponse err)).

End WithServices.

End Signer.

(** ** An executable stand-in for ethers
    A private key is accepted when it has 66 characters; signatures are
    fixed texts. *)
Module SignerDemo.
Import Signer.

#[export] Instance ethers : Ethers := {|
  Wallet := string;
  Wallet_new := fun privateKey =>
    if (String.length privateKey =? 66)%nat then Ok privateKey
    else Throw (MkError "invalid private key");
  Wallet_address := fun wallet => String.append "0x" (substring 26 40 wallet);
  Wallet_signMessage := fun wallet message => Ok "0xsigned-message";
  Wallet_signTransaction := fun wallet transaction => Ok "0x02f8signed";
  Wallet_signTypedData := fun wallet domain types value => Ok "0xsigned-typed-data";
  keccak256 := fun data => Ok "0xhash"
|}.

Definition private_key : string :=
  "0x4c0883a69102937d6231471b5dbb6204fe5129617082792ae468d01a3f362318".

Definition vault : list WalletData.t :=
  [WalletData.Make "id-1" "A" "0x1111" "blob-A" None 1700000000000].

(** Decryption of the one blob of the vault. *)
Definition decrypt (encrypted password : string) : Result string :=
  if String.eqb encrypted "blob-A" && String.eqb password "secret1"
  then Ok private_key
  else Throw (MkError "Decryption failed. Password incorrect or data corrupted.").

Definition no_vault_method (request : ApiRequest) : M ServiceResponse :=
  throw "Unknown vault method".

Definition no_chain_query (request : ApiRequest) (network : string)
    : M ServiceResponse :=
  throw "RPC Error fetching balance".

Definition start : Machine := MkMachine ["(log of the previous request)"] [] None.

Definition sign_request (type : string) (label : string) (payload : JSON)
    : ApiRequest :=
  MkApiRequest type (Some label) None None (Some payload).

(** The dispatcher of the demonstration, on an already parsed request. *)
Definition dispatch (request : ApiRequest) : Result ServiceResponse * Machine :=
  handleProcessRequest vault "secret1" decrypt (fun _ => Some request)
    no_vault_method no_chain_query "(request text)" start.

End SignerDemo.

(* ===================================================================== *)
(** * 6. The settings panel                                               *)
(* ===================================================================== *)

(** [removeAttribute] of [src/components/Settings.tsx], on the vault: the
    prop [settings] is the settings of the vault, and the prop
    [onUpdateSettings] calls [updateSettings] (in [App], before it writes a
    line to the system log); with one of the two props missing the function
    returns at once. *)
Module SettingsPanel.
Import Vault.

Section WithPlatform.
Context {platform : Platform}.

Definition removeAttribute (key : string) (w : World) : World :=
  updateSettings
    (PartialSettings.Make None None
       (Some (filter (fun d => AttributeDefinition.key d <> key)
                (VaultSettings.attributeDefinitions (settings (hook w))))))
    w.

End WithPlatform.
End SettingsPanel.

(** ** Loading the page
    The hook starts from its initial state cells and runs its effect on
    the storage that is there. *)
Module VaultPage.
Import Vault.

Section WithPlatform.
Context {platform : Platform}.

(** The page as it comes up when it is loaded with the storage that a
    world left. *)
Definition reload (w : World) : World :=
  initialize (MkWorld initial_hook (localStorage w) []).

End WithPlatform.
End VaultPage.

(** ** Backups
    [exportVault] of [src/App.tsx] writes the wallets and the settings of
    the vault as JSON into a file for the user (and a line into the system
    log); the text of such a file is what [importVaultData] is given.
    Parsing the text gives back an object with the array of the wallets and
    with the settings. *)
Module VaultBackup.
Import Vault.

Class ExportPlatform {platform : Platform} := {
  JSON_stringify_export : list WalletData.t -> VaultSettings.t -> string;
  JSON_parse_stringify_export : forall ws s,
    JSON_parse_backup (JSON_stringify_export ws s)
      = Ok (MkBackup (WalletsArray ws) (Some (PartialSettings.of_settings s)))
}.

Section WithPlatform.
Context {platform : Platform} {export : ExportPlatform}.

(** The text that [exportVault] offers for download. *)
Definition exportVault (w : World) : string :=
  JSON_stringify_export (wallets (hook w)) (settings (hook w)).

End WithPlatform.

Definition demo_stringify (ws : list WalletData.t) (s : VaultSettings.t) : string :=
  VaultDemo.stringify_backup
    (MkBackup (WalletsArray ws) (Some (PartialSettings.of_settings s))).

Lemma demo_parse_stringify (ws : list WalletData.t) (s : VaultSettings.t) :
  JSON_parse_backup (Platform := VaultDemo.platform) (demo_stringify ws s)
    = Ok (MkBackup (WalletsArray ws) (Some (PartialSettings.of_settings s))).
Proof. apply VaultDemo.parse_stringify_backup. Qed.

#[export] Instance demo : @ExportPlatform VaultDemo.platform := {|
  JSON_stringify_export := demo_stringify;
  JSON_parse_stringify_export := demo_parse_stringify
|}.

End VaultBackup.

(* ===================================================================== *)
(** * 7. Chain metadata and transfer transactions                         *)
(* ===================================================================== *)

Module Chain.
Import Network.

Record NetworkMetadata := MkNetworkMetadata {
  key : string;
  name : string;
  explorer : string
}.

(** [getNetworkMetadata], on a chain id that is a whole number (any
    other number takes the [default] branch as well). *)
Definition getNetworkMetadata (chainId : Z) : option NetworkMetadata :=
  if chainId =? 1 then
    Some (MkNetworkMetadata "mainnet" "Ethereum Mainnet" "https://etherscan.io")
  else if chainId =? 42161 then
    Some (MkNetworkMetadata "arbitrum" "Arbitrum One" "https://arbiscan.io")
  else if chainId =? 10 then
    Some (MkNetworkMetadata "optimism" "Optimism" "https://optimistic.etherscan.io")
  else if chainId =? 137 then
    Some (MkNetworkMetadata "polygon" "Polygon" "https://polygonscan.com")
  else if chainId =? 8453 then
    Some (MkNetworkMetadata "base" "Base" "https://basescan.org")
  else if chainId =? 324 then
    Some (MkNetworkMetadata "zksync" "zkSync Era" "https://explorer.zksync.io")
  else if chainId =? 59144 then
    Some (MkNetworkMetadata "linea" "Linea" "https://lineascan.build")
  else if chainId =? 11155111 then
    Some (MkNetworkMetadata "sepolia" "Sepolia" "https://sepolia.etherscan.io")
  else None.

Inductive Token := ETH | USDT | USDC.

Definition symbol (token : Token) : string :=
  match token with
  | ETH => "ETH"
  | USDT => "USDT"
  | USDC => "USDC"
  end.

Record Transaction := MkTransaction {
  to : string;
  value : Z;
  data : string
}.

(** What [createTransferTransaction] uses of ethers: the two parsers of
    decimal amounts, and the call data of the ERC-20 [transfer]. *)
Class Units := {
  parseEther : string -> Result Z;
  parseUnits : string -> Z -> Result Z;
  encode_transfer : string -> Z -> Result string
}.

Section WithEnvironment.
Context {env : Environment} {units : Units}.

(** [token === 'USDT' ? tokens?.usdt : tokens?.usdc] *)
Definition tokenAddress (token : Token) (network : string) : option string :=
  match get_property TOKEN_ADDRESSES (toLowerCase network) with
  | Own tokens =>
      match token with
      | USDT => usdt tokens
      | _ => usdc tokens
      end
  | _ => None
  end.

Definition createTransferTransaction (recipient amount : string) (token : Token)
    (network : string) : Result Transaction :=
  match token with
  | ETH =>
      match parseEther amount with
      | Throw e => Throw e
      | Ok valueWei => Ok (MkTransaction recipient valueWei "0x")
      end
  | _ =>
      match tokenAddress token network with
      | Some contract =>
          if String.eqb contract "" then
            Throw (MkError (symbol token ++ " contract not configured for " ++ network))
          else
            match parseUnits amount 6 with
            | Throw e => Throw e
            | Ok amountUnits =>
                match encode_transfer recipient amountUnits with
                | Throw e => Throw e
                | Ok calldata => Ok (MkTransaction contract 0 calldata)
                end
            end
      | None =>
          Throw (MkError (symbol token ++ " contract not configured for " ++ network))
      end
  end.

End WithEnvironment.
End Chain.

(* ===================================================================== *)
(** * 8. The system logger and the log shown by the application           *)
(* ===================================================================== *)

Module SystemLogger.

Record Entry := MkEntry {
  id : string;
  timestamp : Z;
  message : string;
  type : string;
  source : string
}.

(** A listener is a function; the logger only calls it and compares it
    with [!==], so that it is known here by its identity. *)
Definition Listener := nat.

(** The logger: its listeners in the order of their registration, and the
    calls made to them so far. *)
Record t := Make {
  listeners : list Listener;
  delivered : list (Listener * Entry)
}.

(** [log]: [uuid] and [now] are what [crypto.randomUUID()] and
    [Date.now()] return in this call; a missing [type] is ['info'] and a
    missing [source] is ['System']. *)
Definition log (uuid : string) (now : Z) (message : string)
    (type source : option string) (l : t) : t :=
  let entry := MkEntry uuid now message (default "info" type) (default "System" source) in
  Make (listeners l)
       (delivered l ++ map (fun listener => (listener, entry)) (listeners l)).

Definition subscribe (listener : Listener) (l : t) : t :=
  Make (listeners l ++ [listener]) (delivered l).

(** The function that [subscribe] returns. *)
Definition unsubscribe (listener : Listener) (l : t) : t :=
  Make (filter (fun x => x <> listener) (listeners l)) (delivered l).

(** [array.slice(-n)] *)
Definition slice_last {A : Type} (n : nat) (l : list A) : list A :=
  drop (length l - n) l.

(** The listener of [App]: [setLogs(prev => [...prev, entry].slice(-100))]. *)
Definition App_listener (prev : list Entry) (entry : Entry) : list Entry :=
  slice_last 100 (prev ++ [entry]).

End SystemLogger.

(* ===================================================================== *)
(** * 9. Importing a private key                                          *)
(* ===================================================================== *)

Module WalletImport.
Import Signer.

Record KeyCheck := MkKeyCheck {
  address : string;
  valid : bool;
  normalizedKey : string
}.

Section WithEthers.
Context {ethers : Ethers}.

Definition createWalletFromKey (privateKey : string) : KeyCheck :=
  let pk := if String.prefix "0x" privateKey then privateKey
            else String.append "0x" privateKey in
  match Wallet_new pk with
  | Ok wallet => MkKeyCheck (Wallet_address wallet) true pk
  | Throw _ => MkKeyCheck "" false ""
  end.

(** What [processImport] of [src/components/WalletManager.tsx] takes from
    its surroundings: [String.prototype.trim], the wallets and the password
    of the vault, and for this call the blob that [encryptData] makes and
    the values of [crypto.randomUUID()] and [Date.now()]. *)
Variable trim : string -> string.
Variable wallets : list WalletData.t.
Variable password : string.
Variable encryptData : string -> string -> string.
Variable uuid : string.
Variable now : Z.

Definition processImport (name key : string) (metadata : option (gmap string string))
    : Result WalletData.t :=
  let trimmedName := trim name in
  if String.eqb trimmedName "" || String.eqb (trim key) "" then
    Throw (MkError "Name and Key required")
  else if existsb (fun w => String.eqb (WalletData.name w) trimmedName) wallets then
    Throw (MkError ("Name '" ++ trimmedName ++ "' exists"))
  else
    let check := createWalletFromKey (trim key) in
    if negb (valid check) then
      Throw (MkError ("Invalid Key for " ++ trimmedName))
    else
      Ok (WalletData.Make uuid trimmedName (address check)
            (encryptData (trim key) password)
            (Some (default ∅ metadata)) now).

End WithEthers.
End WalletImport.

(** ** An executable [trim]
    Spaces, tabs and line ends are removed at both ends. *)
Module WalletImportDemo.

Definition is_space (a : ascii) : bool :=
  existsb (Ascii.eqb a) [" "%char; "009"%char; "010"%char; "013"%char].

Fixpoint trim_start (s : string) : string :=
  match s with
  | String a rest => if is_space a then trim_start rest else s
  | EmptyString => EmptyString
  end.

Fixpoint trim_end (s : string) : string :=
  match s with
  | String a rest =>
      match trim_end rest with
      | EmptyString => if is_space a then EmptyString else String a EmptyString
      | kept => String a kept
      end
  | EmptyString => EmptyString
  end.

Definition trim (s : string) : string := trim_end (trim_start s).

(** The blob of the demonstration names what it holds. *)
Definition encrypt (data password : string) : string :=
  String.append "blob:" (String.append data (String.append ":" password)).

End WalletImportDemo.

(* ===================================================================== *)
(** * Part II. Properties                                                 *)
(* ===================================================================== *)

Module TextCodecFacts.
Import TextCodec.

Lemma land_low_bits (a : Z) (n : Z) :
  0 <= n -> Z.land a (2 ^ n - 1) = a mod 2 ^ n.
Proof.
  intros Hn. rewrite <- Z.land_ones by assumption.
  now rewrite Z.ones_equiv, <- Z.sub_1_r.
Qed.

Lemma land_shiftl_low (a n y : Z) :
  0 <= n -> 0 <= y < 2 ^ n -> Z.land (Z.shiftl a n) y = 0.
Proof.
  intros Hn Hy. apply Z.bits_inj'. intros m Hm.
  rewrite Z.land_spec, Z.bits_0.
  destruct (Z.lt_ge_cases m n) as [Hlt | Hge].
  - rewrite Z.shiftl_spec_low by assumption. reflexivity.
  - rewrite <- (Z.mod_small y (2 ^ n)) by assumption.
    rewrite Z.mod_pow2_bits_high by lia. apply andb_false_r.
Qed.

Lemma lor_shiftl_add (a n y : Z) :
  0 <= n -> 0 <= y < 2 ^ n -> Z.lor (Z.shiftl a n) y = a * 2 ^ n + y.
Proof.
  intros Hn Hy.
  rewrite <- Z.lxor_lor by (apply land_shiftl_low; assumption).
  rewrite <- Z.add_nocarry_lxor by (apply land_shiftl_low; assumption).
  now rewrite Z.shiftl_mul_pow2.
Qed.

Lemma lor_0x80 (y : Z) : 0 <= y < 64 -> Z.lor 0x80 y = 0x80 + y.
Proof.
  intros Hy. pose proof (lor_shiftl_add 1 7 y) as H.
  change (Z.shiftl 1 7) with 128 in H. change (2 ^ 7) with 128 in H.
  rewrite H; lia.
Qed.

Lemma land_0x3F (a : Z) : Z.land a 0x3F = a mod 64.
Proof. apply (land_low_bits a 6). lia. Qed.

Lemma land_0x1F (a : Z) : Z.land a 0x1F = a mod 32.
Proof. apply (land_low_bits a 5). lia. Qed.

Lemma land_0xF (a : Z) : Z.land a 0xF = a mod 16.
Proof. apply (land_low_bits a 4). lia. Qed.

Lemma land_0x7 (a : Z) : Z.land a 0x7 = a mod 8.
Proof. apply (land_low_bits a 3). lia. Qed.

Lemma land_0x3FF (a : Z) : Z.land a 0x3FF = a mod 1024.
Proof. apply (land_low_bits a 10). lia. Qed.

Lemma lor_shiftl6 (c y : Z) : 0 <= y < 64 -> Z.lor (Z.shiftl c 6) y = c * 64 + y.
Proof. intros Hy. rewrite lor_shiftl_add; change (2 ^ 6) with 64; lia. Qed.

Ltac bool_to_prop :=
  repeat match goal with
  | H : _ && _ = true |- _ => apply andb_true_iff in H; destruct H
  | H : _ && _ = false |- _ => apply andb_false_iff in H
  | H : negb _ = true |- _ => apply negb_true_iff in H
  | H : negb _ = false |- _ => apply negb_false_iff in H
  | H : (_ <=? _) = true |- _ => apply Z.leb_le in H
  | H : (_ <=? _) = false |- _ => apply Z.leb_gt in H
  | H : (_ =? _) = true |- _ => apply Z.eqb_eq in H
  | H : (_ =? _) = false |- _ => apply Z.eqb_neq in H
  end.

Ltac arith := bool_to_prop; Z.div_mod_to_equations; lia.

Ltac step_if :=
  match goal with
  | |- context [if ?c then _ else _] =>
      lazymatch c with
      | context [if _ then _ else _] => fail
      | _ => destruct c eqn:?; try (exfalso; arith)
      end
  end.

Definition is_scalar (cp : Z) : Prop :=
  0 <= cp <= 0xD7FF \/ 0xE000 <= cp <= 0x10FFFF.

Lemma utf8_encode_shape (cp : Z) :
  0 <= cp ->
  utf8_encode cp =
    if cp <=? 0x7F then [cp]
    else if cp <=? 0x7FF then [0xC0 + cp / 64; 0x80 + cp mod 64]
    else if cp <=? 0xFFFF then
      [0xE0 + cp / 4096; 0x80 + (cp / 64) mod 64; 0x80 + cp mod 64]
    else [0xF0 + cp / 262144; 0x80 + (cp / 4096) mod 64;
          0x80 + (cp / 64) mod 64; 0x80 + cp mod 64].
Proof.
  intros Hcp. unfold utf8_encode.
  repeat step_if; try reflexivity;
    cbn [utf8_continuation Nat.add];
    rewrite ?land_0x3F, ?Z.shiftr_div_pow2 by lia;
    rewrite ?lor_0x80 by (apply Z.mod_pos_bound; lia);
    change (2 ^ (6 * Z.of_nat 0)) with 1;
    change (2 ^ (6 * Z.of_nat 1)) with 64;
    change (2 ^ (6 * Z.of_nat 2)) with 4096;
    change (2 ^ (6 * Z.of_nat 3)) with 262144;
    rewrite ?Z.div_1_r;
    repeat match goal with |- _ :: _ = _ :: _ => f_equal end; lia.
Qed.

Lemma utf8_run_encode (cp : Z) (rest : bytes) :
  is_scalar cp ->
  utf8_run utf8_init (utf8_encode cp ++ rest) = cp :: utf8_run utf8_init rest.
Proof.
  intros Hcp. rewrite utf8_encode_shape by (unfold is_scalar in Hcp; lia).
  unfold is_scalar in Hcp.
  repeat step_if;
    cbn [app utf8_run]; unfold utf8_handler, utf8_lead, utf8_init;
    cbn [u_code_point u_bytes_seen u_bytes_needed u_lower u_upper];
    rewrite ?land_0x3F, ?land_0x1F, ?land_0xF, ?land_0x7.
  all: repeat (step_if;
    cbn [app utf8_run u_code_point u_bytes_seen u_bytes_needed u_lower u_upper];
    rewrite ?land_0x3F, ?lor_shiftl6 by (apply Z.mod_pos_bound; lia)).
  all: f_equal; arith.
Qed.

Lemma utf8_decode_encode (cps : list Z) :
  Forall is_scalar cps -> utf8_decode (flat_map utf8_encode cps) = cps.
Proof.
  unfold utf8_decode. induction 1 as [| cp cps Hcp _ IH]; [reflexivity |].
  cbn [flat_map]. rewrite utf8_run_encode by assumption. now rewrite IH.
Qed.

(** Induction over strings that follows [to_USVString]: one or two code
    units are consumed at a time. *)
Lemma DOMString_pair_ind (P : DOMString -> Prop) :
  P [] ->
  (forall c, P [c]) ->
  (forall c d rest, P rest -> P (d :: rest) -> P (c :: d :: rest)) ->
  forall s, P s.
Proof.
  intros Hnil Hone Hstep s.
  assert (H : P s /\ forall c, P (c :: s)); [| apply H].
  induction s as [| d rest [IH1 IH2]]; split; auto.
Qed.

Lemma to_USVString_step (c d : Z) (rest : DOMString) :
  to_USVString (c :: d :: rest) =
    if is_lead_surrogate c then
      if is_trail_surrogate d
      then (0x10000 + 0x400 * Z.land c 0x3FF + Z.land d 0x3FF) :: to_USVString rest
      else 0xFFFD :: to_USVString (d :: rest)
    else if is_trail_surrogate c then 0xFFFD :: to_USVString (d :: rest)
    else c :: to_USVString (d :: rest).
Proof. reflexivity. Qed.

Lemma well_formed_step (c d : Z) (rest : DOMString) :
  well_formed (c :: d :: rest) =
    if is_lead_surrogate c then is_trail_surrogate d && well_formed rest
    else negb (is_trail_surrogate c) && (0 <=? c) && (c <=? 0xFFFF)
         && well_formed (d :: rest).
Proof. reflexivity. Qed.

Lemma to_USVString_scalar (s : DOMString) :
  well_formed s = true -> Forall is_scalar (to_USVString s).
Proof.
  induction s as [| c | c d rest IH1 IH2] using DOMString_pair_ind.
  - constructor.
  - cbn [well_formed to_USVString]; unfold is_lead_surrogate, is_trail_surrogate.
    repeat step_if; intros Hwf; try discriminate.
    constructor; [unfold is_scalar; arith | constructor].
  - rewrite well_formed_step, to_USVString_step.
    unfold is_lead_surrogate, is_trail_surrogate.
    repeat step_if; intros Hwf; try discriminate; bool_to_prop.
    + constructor; [| auto].
      rewrite !land_0x3FF. unfold is_scalar. arith.
    + constructor; [unfold is_scalar; lia |]. apply IH2. assumption.
Qed.

Lemma to_USVString_utf16 (s : DOMString) :
  well_formed s = true -> flat_map utf16_encode (to_USVString s) = s.
Proof.
  induction s as [| c | c d rest IH1 IH2] using DOMString_pair_ind.
  - reflexivity.
  - cbn [well_formed to_USVString]; unfold is_lead_surrogate, is_trail_surrogate.
    repeat step_if; intros Hwf; try discriminate.
    cbn [flat_map app]. unfold utf16_encode. step_if. reflexivity.
  - rewrite well_formed_step, to_USVString_step.
    unfold is_lead_surrogate, is_trail_surrogate.
    repeat step_if; intros Hwf; try discriminate; bool_to_prop.
    + cbn [flat_map]. rewrite IH1 by assumption.
      unfold utf16_encode. rewrite !land_0x3FF. step_if.
      rewrite ?Z.shiftr_div_pow2, ?land_0x3FF by lia. change (2 ^ 10) with 1024.
      cbn [app]. f_equal; [| f_equal]; arith.
    + cbn [flat_map]. rewrite IH2 by assumption.
      unfold utf16_encode. step_if. reflexivity.
Qed.

Lemma strip_BOM_to_USVString (s : DOMString) :
  starts_with_BOM s = false -> strip_BOM (to_USVString s) = to_USVString s.
Proof.
  destruct s as [| c rest]; [reflexivity |].
  cbn [starts_with_BOM to_USVString]; unfold is_lead_surrogate, is_trail_surrogate.
  intros Hc. destruct rest as [| d rest']; repeat step_if; cbn [strip_BOM];
    rewrite ?land_0x3FF; try reflexivity; step_if; reflexivity.
Qed.

(** Decoding what the encoder produced gives the string back, for
    well-formed strings that do not begin with U+FEFF. *)
Lemma TextDecoder_TextEncoder (s : DOMString) :
  well_formed s = true -> starts_with_BOM s = false ->
  TextDecoder_decode (TextEncoder_encode s) = s.
Proof.
  intros Hwf Hbom. unfold TextDecoder_decode, TextEncoder_encode.
  rewrite utf8_decode_encode by (apply to_USVString_scalar; assumption).
  rewrite strip_BOM_to_USVString by assumption.
  apply to_USVString_utf16. assumption.
Qed.

End TextCodecFacts.

(* ===================================================================== *)
(** ** Encrypted blobs                                                    *)
(* ===================================================================== *)

Module CryptoFacts.
Import TextCodec TextCodecFacts Crypto.

Lemma utf8_encode_bytes (cp : Z) : is_scalar cp -> byte_array (utf8_encode cp).
Proof.
  intros Hcp. unfold is_scalar in Hcp.
  rewrite utf8_encode_shape by lia.
  repeat step_if; repeat constructor; unfold is_byte; arith.
Qed.

Lemma TextEncoder_encode_bytes (s : DOMString) :
  well_formed s = true -> byte_array (TextEncoder_encode s).
Proof.
  intros Hwf. unfold TextEncoder_encode, byte_array.
  pose proof (to_USVString_scalar s Hwf) as Hsc.
  induction Hsc as [| cp cps Hcp _ IH]; [constructor |].
  cbn [flat_map]. apply Forall_app. split; [| exact IH].
  apply utf8_encode_bytes. exact Hcp.
Qed.

Lemma Uint8Array_from_bytes (l : bytes) : byte_array l -> Uint8Array_from l = l.
Proof.
  induction 1 as [| b l Hb _ IH]; [reflexivity |].
  unfold Uint8Array_from in *. cbn [map]. rewrite IH. f_equal.
  unfold is_byte in Hb. apply Z.mod_small. lia.
Qed.

Section WithPlatform.
Context {platform : WebPlatform}.

(** Decrypting a fresh blob with the password that made it gives the
    plaintext after one pass through the text encoder and decoder. *)
Lemma decryptData_encryptData_codec (P W : DOMString) (salt iv : bytes) :
  byte_array (TextEncoder_encode P) ->
  byte_array salt -> length salt = 16%nat ->
  byte_array iv -> length iv = 12%nat ->
  decryptData (encryptData P W salt iv) W
    = Ok (TextDecoder_decode (TextEncoder_encode P)).
Proof.
  intros HP Hs Ls Hi Li. unfold decryptData, encryptData.
  rewrite JSON_parse_atob_stringify; cbn [Crypto.salt Crypto.iv Crypto.data];
    try assumption; [| apply AES_GCM_encrypt_bytes; assumption].
  rewrite !Uint8Array_from_bytes;
    try assumption; [| apply AES_GCM_encrypt_bytes; assumption].
  rewrite AES_GCM_decrypt_encrypt by assumption.
  reflexivity.
Qed.

(** C1 (as amended): for every plaintext that is a well-formed UTF-16
    string not beginning with U+FEFF, every password, and the 16-byte
    salt and 12-byte nonce drawn by the encryption, decrypting the blob
    made by [encryptData] with the same password returns the plaintext. *)
Theorem decryptData_encryptData (P W : DOMString) (salt iv : bytes) :
  well_formed P = true -> starts_with_BOM P = false ->
  byte_array salt -> length salt = 16%nat ->
  byte_array iv -> length iv = 12%nat ->
  decryptData (encryptData P W salt iv) W = Ok P.
Proof.
  intros Hwf Hbom Hs Ls Hi Li.
  rewrite decryptData_encryptData_codec; try assumption.
  - f_equal. apply TextDecoder_TextEncoder; assumption.
  - apply TextEncoder_encode_bytes. assumption.
Qed.
End WithPlatform.

Definition demo_salt : bytes := [1; 2; 3; 4; 5; 6; 7; 8; 9; 10; 11; 12; 13; 14; 15; 16].
Definition demo_iv : bytes := [250; 251; 252; 253; 254; 255; 0; 1; 2; 3; 4; 5].

Ltac byte_list :=
  unfold byte_array;
  match goal with
  | |- Forall is_byte ?l =>
      let l' := eval vm_compute in l in change (Forall is_byte l')
  end;
  repeat constructor; unfold is_byte; lia.

Lemma decryptData_encryptData_witness :
  decryptData (platform := Demo.platform)
    (encryptData (platform := Demo.platform)
       (of_string "0xabc123") (of_string "secret1") demo_salt demo_iv)
    (of_string "secret1")
  = Ok (of_string "0xabc123").
Proof.
  apply (decryptData_encryptData (platform := Demo.platform));
    solve [reflexivity | byte_list].
Defined.

(** The text decoder drops a leading U+FEFF, and the text encoder
    replaces an unpaired surrogate by U+FFFD. *)
Example TextDecoder_drops_BOM :
  TextDecoder_decode (TextEncoder_encode [0xFEFF; 0x41]) = [0x41].
Proof. reflexivity. Qed.

Example TextEncoder_replaces_lone_surrogate :
  TextDecoder_decode (TextEncoder_encode [0xD800; 0x41]) = [0xFFFD; 0x41].
Proof. reflexivity. Qed.

(** C1 (as stated) fails: the plaintext U+FEFF "A" comes back as "A", and
    the plaintext made of the unpaired surrogate U+D800 and "A" comes back
    as U+FFFD "A". *)
Lemma roundtrip_loses_leading_BOM :
  let W := of_string "secret1" in
  let roundtrip P :=
    decryptData (platform := Demo.platform)
      (encryptData (platform := Demo.platform) P W demo_salt demo_iv) W in
  roundtrip [0xFEFF; 0x41] = Ok [0x41]
  /\ roundtrip [0xD800; 0x41] = Ok [0xFFFD; 0x41].
Proof.
  cbv zeta. split;
    rewrite (decryptData_encryptData_codec (platform := Demo.platform));
    solve [reflexivity | byte_list].
Qed.

End CryptoFacts.

(* ===================================================================== *)
(** ** Vault session manager                                              *)
(* ===================================================================== *)

Module VaultFacts.
Import Vault.

Lemma truthy_true (s : string) : truthy s = true <-> s <> "".
Proof.
  unfold truthy. rewrite negb_true_iff. apply String.eqb_neq.
Qed.

Lemma spread_of_settings (base s : VaultSettings.t) :
  PartialSettings.spread base (PartialSettings.of_settings s) = s.
Proof. destruct s. reflexivity. Qed.

Section WithPlatform.
Context {platform : Platform}.

(** C2: [unlockVault] returns true exactly when a persisted store
    exists and the hash of the supplied password equals its
    [masterHash]; it then loads the persisted wallets and the persisted
    settings spread over the defaults; otherwise it returns false and
    leaves the hook state and the storage as they were. *)
Theorem unlockVault_correct (password : string) (w : World) :
  (fst (unlockVault password w) = true <->
     exists st, persisted_store w = Some st
                /\ VaultStore.masterHash st = hashPassword password)
  /\ (forall st, persisted_store w = Some st ->
        VaultStore.masterHash st = hashPassword password ->
        let w' := snd (unlockVault password w) in
        wallets (hook w') = VaultStore.wallets st
        /\ settings (hook w')
             = PartialSettings.spread DEFAULT_SETTINGS (VaultStore.settings st)
        /\ masterPassword (hook w') = password
        /\ isLocked (hook w') = false)
  /\ ((persisted_store w = None
       \/ exists st, persisted_store w = Some st
                     /\ VaultStore.masterHash st <> hashPassword password) ->
      fst (unlockVault password w) = false
      /\ hook (snd (unlockVault password w)) = hook w
      /\ localStorage (snd (unlockVault password w)) = localStorage w).
Proof.
  unfold unlockVault, persisted_store.
  destruct (localStorage w) as [stored |] eqn:Hls.
  2:{ cbn. repeat split; try discriminate; try (intros [st [? _]]; discriminate);
      try (intros st ?; discriminate); congruence. }
  destruct (truthy stored) eqn:Htr; cbn [negb].
  2:{ cbn. rewrite ?Hls. repeat split; try discriminate;
      try (intros [st [? _]]; discriminate); try (intros st ?; discriminate);
      congruence. }
  destruct (JSON_parse_store stored) as [parsed |] eqn:Hparse.
  2:{ cbn. rewrite ?Hls. repeat split; try discriminate;
      try (intros [st [? _]]; discriminate); try (intros st ?; discriminate);
      congruence. }
  destruct (String.eqb (VaultStore.masterHash parsed) (hashPassword password))
    eqn:Hhash.
  - apply String.eqb_eq in Hhash. cbn [fst snd]. split; [| split].
    + split; [intros _; exists parsed; auto | reflexivity].
    + intros st Hst _. injection Hst as <-.
      destruct (truthy (VaultStore.checksum parsed) && _); cbn; auto.
    + intros [Hnone | [st [Hst Hne]]]; [discriminate |].
      injection Hst as <-. contradiction.
  - apply String.eqb_neq in Hhash. cbn [fst snd]. split; [| split].
    + split; [discriminate |].
      intros [st [Hst Heq]]. injection Hst as <-. contradiction.
    + intros st Hst Heq. injection Hst as <-. contradiction.
    + intros _. rewrite Hls. auto.
Qed.

Lemma persisted_store_stringify (h : HookState) (c : list ConsoleEntry)
    (st : VaultStore.t) :
  persisted_store (MkWorld h (Some (JSON_stringify_store st)) c) = Some st.
Proof.
  unfold persisted_store. cbn [localStorage].
  assert (Htr : truthy (JSON_stringify_store st) = true)
    by (apply truthy_true, JSON_stringify_store_nonempty).
  rewrite Htr. apply JSON_parse_stringify_store.
Qed.

Lemma persisted_store_persist ws s passHash (w : World) :
  persisted_store (persist ws s passHash w)
    = Some (VaultStore.Make ws passHash (PartialSettings.of_settings s)
              (generateIntegrityHash ws (PartialSettings.of_settings s))).
Proof. unfold persist, localStorage_setItem. apply persisted_store_stringify. Qed.

Lemma persisted_store_set_hook f (w : World) :
  persisted_store (set_hook f w) = persisted_store w.
Proof. reflexivity. Qed.

(** A digest is never the empty string, nor any string that is not 64
    characters long. *)
Lemma generateIntegrityHash_length ws s :
  String.length (generateIntegrityHash ws s) = 64%nat.
Proof. apply SHA256_hex_length. Qed.

Lemma verifyIntegrity_length (st : VaultStore.t) :
  String.length (VaultStore.checksum st) <> 64%nat -> verifyIntegrity st = false.
Proof.
  intros Hlen. unfold verifyIntegrity. apply String.eqb_neq. intros Heq.
  apply Hlen. rewrite Heq. apply generateIntegrityHash_length.
Qed.

(** What [unlockVault] does once the stored hash matches. *)
Lemma unlockVault_hash_matches (password : string) (w : World)
    (st : VaultStore.t) :
  persisted_store w = Some st ->
  VaultStore.masterHash st = hashPassword password ->
  unlockVault password w =
    (true,
     setIsLocked false
       (setMasterPassword password
          (setSettings
             (PartialSettings.spread DEFAULT_SETTINGS (VaultStore.settings st))
             (setWallets (VaultStore.wallets st)
                (if truthy (VaultStore.checksum st) && negb (verifyIntegrity st)
                 then console_log (console_warn integrity_warning) w
                 else w))))).
Proof.
  unfold unlockVault, persisted_store, verifyIntegrity.
  destruct (localStorage w) as [stored |]; [| discriminate].
  destruct (truthy stored); [| discriminate]. cbn [negb].
  intros Hst Hhash. rewrite Hst.
  apply String.eqb_eq in Hhash. rewrite Hhash. reflexivity.
Qed.

(** C4 (as amended): when the stored [masterHash] matches, [unlockVault]
    returns true and loads the stored wallets and settings whatever the
    stored checksum is; it logs the tamper warning exactly when the
    stored checksum is a non-empty string that differs from the hash
    recomputed over the stored wallets and settings. *)
Theorem unlockVault_soft_integrity (password : string) (w : World)
    (st : VaultStore.t) :
  persisted_store w = Some st ->
  VaultStore.masterHash st = hashPassword password ->
  let w' := snd (unlockVault password w) in
  fst (unlockVault password w) = true
  /\ wallets (hook w') = VaultStore.wallets st
  /\ settings (hook w')
       = PartialSettings.spread DEFAULT_SETTINGS (VaultStore.settings st)
  /\ console w' =
       if truthy (VaultStore.checksum st) && negb (verifyIntegrity st)
       then console w ++ [console_warn integrity_warning]
       else console w.
Proof.
  intros Hst Hhash. rewrite (unlockVault_hash_matches _ _ _ Hst Hhash).
  destruct (truthy (VaultStore.checksum st) && _); cbn; auto.
Qed.

Lemma list_to_set_ids (x : WalletData.t) (ws : list WalletData.t) :
  WalletData.id x ∈ (list_to_set (map WalletData.id ws) : gset string)
  <-> exists y, y ∈ ws /\ WalletData.id y = WalletData.id x.
Proof.
  rewrite elem_of_list_to_set. change (map WalletData.id ws) with (WalletData.id <$> ws).
  rewrite list_elem_of_fmap. split; intros [y [? ?]]; exists y; auto.
Qed.

(** C8: for a backup whose [wallets] member is an array,
    [importVaultData] appends to the working wallets those backup
    wallets, in order, whose [id] equals the [id] of no current wallet
    (names play no part), writes the result to storage under the hash of
    the supplied password with the current settings, and returns how
    many it added; for a text that does not parse, or whose [wallets]
    member is missing or not an array, it returns a failure and changes
    neither the hook state nor the storage. *)
Theorem importVaultData_correct (jsonString currentPassword : string)
    (w : World) :
  (forall backup ws,
      JSON_parse_backup jsonString = Ok backup ->
      backup_wallets backup = WalletsArray ws ->
      exists toAdd,
        (forall x, x ∈ toAdd <->
           x ∈ ws /\ ~ exists y, y ∈ wallets (hook w)
                                 /\ WalletData.id y = WalletData.id x)
        /\ sublist toAdd ws
        /\ fst (importVaultData jsonString currentPassword w)
             = ImportSuccess (length toAdd)
        /\ let w' := snd (importVaultData jsonString currentPassword w) in
           wallets (hook w') = wallets (hook w) ++ toAdd
           /\ settings (hook w') = settings (hook w)
           /\ localStorage w' =
                Some (JSON_stringify_store
                        (VaultStore.Make
                           (wallets (hook w) ++ toAdd)
                           (hashPassword currentPassword)
                           (PartialSettings.of_settings (settings (hook w)))
                           (generateIntegrityHash (wallets (hook w) ++ toAdd)
                              (PartialSettings.of_settings (settings (hook w)))))))
  /\ ((match JSON_parse_backup jsonString with
       | Throw _ => True
       | Ok backup =>
           match backup_wallets backup with
           | WalletsArray _ => False
           | _ => True
           end
       end) ->
      (exists e, fst (importVaultData jsonString currentPassword w) = ImportFailure e)
      /\ snd (importVaultData jsonString currentPassword w) = w).
Proof.
  unfold importVaultData. split.
  - intros backup ws Hparse Hws. rewrite Hparse, Hws.
    eexists. split; [| split; [| split; [reflexivity |]]].
    + intros x. rewrite list_elem_of_filter, list_to_set_ids. tauto.
    + apply sublist_filter.
    + cbn. auto.
  - destruct (JSON_parse_backup jsonString) as [backup | e].
    + destruct (backup_wallets backup); intros H; try contradiction;
        cbn; eauto.
    + intros _. cbn. eauto.
Qed.

(** A store, as text in the storage, whose checksum is the hash of its
    own wallets and settings. *)
Definition checksum_invariant (w : World) : Prop :=
  forall st, persisted_store w = Some st -> verifyIntegrity st = true.

(** What [persist] leaves in the storage. *)
Definition persisted_by (newWallets : list WalletData.t)
    (newSettings : VaultSettings.t) (password : string) (w : World) : Prop :=
  let data_settings := PartialSettings.of_settings newSettings in
  localStorage w =
    Some (JSON_stringify_store
            (VaultStore.Make newWallets (hashPassword password) data_settings
               (generateIntegrityHash newWallets data_settings))).

Lemma persisted_by_invariant ws s password (w : World) :
  persisted_by ws s password w -> checksum_invariant w.
Proof.
  unfold persisted_by, checksum_invariant, persisted_store. intros -> st.
  assert (Htr : truthy (JSON_stringify_store
            (VaultStore.Make ws (hashPassword password)
               (PartialSettings.of_settings s)
               (generateIntegrityHash ws (PartialSettings.of_settings s)))) = true).
  { apply truthy_true. apply JSON_stringify_store_nonempty. }
  rewrite Htr, JSON_parse_stringify_store. intros [= <-].
  unfold verifyIntegrity. cbn. apply String.eqb_refl.
Qed.

(** Whether a call writes the store: every mutating call does, except
    an import that fails. *)
Definition persists (op : Operation) (w : World) : bool :=
  match op with
  | OpUnlockVault _ | OpLockVault => false
  | OpImportVaultData jsonString currentPassword =>
      match fst (importVaultData jsonString currentPassword w) with
      | ImportSuccess _ => true
      | ImportFailure _ => false
      end
  | _ => true
  end.

Definition password_used (op : Operation) (w : World) : string :=
  match op with
  | OpCreateVault password => password
  | OpImportVaultData _ currentPassword => currentPassword
  | _ => masterPassword (hook w)
  end.

Lemma run_operation_persists (op : Operation) (w : World) :
  persists op w = true ->
  let w' := run_operation op w in
  persisted_by (wallets (hook w')) (settings (hook w')) (password_used op w) w'.
Proof.
  destruct op; cbn [persists run_operation password_used];
    try discriminate; try (intros _; reflexivity).
  unfold importVaultData.
  destruct (JSON_parse_backup jsonString) as [backup | e]; [| discriminate].
  destruct (backup_wallets backup); try discriminate.
  intros _. reflexivity.
Qed.

Lemma run_operation_storage (op : Operation) (w : World) :
  persists op w = false ->
  localStorage (run_operation op w) = localStorage w.
Proof.
  destruct op; cbn [persists run_operation]; try discriminate.
  - intros _. unfold unlockVault.
    destruct (localStorage w) as [stored |] eqn:Hls; [| cbn; congruence].
    destruct (truthy stored); cbn [negb]; [| cbn; congruence].
    destruct (JSON_parse_store stored); [| cbn; congruence].
    destruct (String.eqb _ _); [| cbn; congruence].
    destruct (truthy _ && _); cbn; congruence.
  - reflexivity.
  - unfold importVaultData.
    destruct (JSON_parse_backup jsonString) as [backup | e]; [| reflexivity].
    destruct (backup_wallets backup); try reflexivity. discriminate.
Qed.

Lemma checksum_invariant_storage (w w' : World) :
  localStorage w' = localStorage w -> checksum_invariant w -> checksum_invariant w'.
Proof.
  unfold checksum_invariant, persisted_store. intros ->. auto.
Qed.

Lemma run_operation_invariant (op : Operation) (w : World) :
  checksum_invariant w -> checksum_invariant (run_operation op w).
Proof.
  intros Hinv. destruct (persists op w) eqn:Hp.
  - eapply persisted_by_invariant. apply run_operation_persists. exact Hp.
  - eapply checksum_invariant_storage; [| exact Hinv].
    apply run_operation_storage. exact Hp.
Qed.

(** C10: every call that persists ([createVault], [addWallet],
    [removeWallet], [updateWalletMetadata], [updateSettings], a
    successful [importVaultData]) leaves in storage the text of a store
    holding the new working wallets and settings with the checksum
    recomputed over exactly those; hence, starting from a storage that
    is empty or holds a store with a valid checksum, after any sequence
    of calls the persisted store has a valid checksum. *)
Theorem persisted_checksum_invariant (ops : list Operation) (w : World) :
  (forall op w0, persists op w0 = true ->
     let w' := run_operation op w0 in
     persisted_by (wallets (hook w')) (settings (hook w')) (password_used op w0) w'
     /\ checksum_invariant w')
  /\ (checksum_invariant w -> checksum_invariant (run ops w)).
Proof.
  split.
  - intros op w0 Hp. split.
    + apply run_operation_persists. exact Hp.
    + eapply persisted_by_invariant. apply run_operation_persists. exact Hp.
  - unfold run. revert w.
    induction ops as [| op ops IH]; intros w Hinv; [exact Hinv |].
    cbn [fold_left]. apply IH. apply run_operation_invariant. exact Hinv.
Qed.

End WithPlatform.
End VaultFacts.

(** ** The vault on concrete data *)
Module VaultExamples.
Import Vault VaultFacts.
#[local] Existing Instance VaultDemo.platform.

Definition empty_world : World := MkWorld initial_hook None [].

Definition wallet_A : WalletData.t :=
  WalletData.Make "id-1" "A" "0x1111" "blob-A" None 1700000000000.
Definition wallet_A_renamed : WalletData.t :=
  WalletData.Make "id-1" "B" "0x1111" "blob-A" None 1700000000000.
Definition wallet_B : WalletData.t :=
  WalletData.Make "id-2" "B" "0x2222" "blob-B" None 1700000000001.

Definition default_partial : PartialSettings.t :=
  PartialSettings.of_settings DEFAULT_SETTINGS.

(** Scenario A: create a vault with "secret1", lock it; unlocking with
    "secret1" succeeds and unlocking with "wrong" fails. *)
Lemma unlockVault_correct_witness :
  let w := lockVault (createVault "secret1" (initialize empty_world)) in
  fst (unlockVault "secret1" w) = true /\ fst (unlockVault "wrong" w) = false.
Proof.
  cbv zeta. set (w := lockVault _).
  assert (Hst : persisted_store w
                = Some (VaultStore.Make [] (hashPassword "secret1") default_partial
                          (generateIntegrityHash [] default_partial))).
  { unfold w, lockVault, createVault, setIsLocked, setMasterPassword.
    rewrite !persisted_store_set_hook. apply persisted_store_persist. }
  destruct (unlockVault_correct "secret1" w) as [Hiff _].
  destruct (unlockVault_correct "wrong" w) as (_ & _ & Hfalse).
  split.
  - apply Hiff. eexists. split; [exact Hst | reflexivity].
  - apply Hfalse. right. eexists. split; [exact Hst |].
    cbn [VaultStore.masterHash]. vm_compute. discriminate.
Defined.

(** A store whose wallet list was edited out of band while its checksum
    was left behind: unlocking succeeds, loads the edited list and logs
    the warning. *)
Lemma unlockVault_soft_integrity_witness :
  let st := VaultStore.Make [wallet_A; wallet_B] (hashPassword "secret1")
              default_partial "0123abcd" in
  let w := MkWorld initial_hook (Some (JSON_stringify_store st)) [] in
  fst (unlockVault "secret1" w) = true
  /\ wallets (hook (snd (unlockVault "secret1" w))) = [wallet_A; wallet_B]
  /\ console (snd (unlockVault "secret1" w)) = [console_warn integrity_warning].
Proof.
  cbv zeta.
  set (st := VaultStore.Make _ _ _ _).
  set (w := MkWorld _ _ _).
  destruct (unlockVault_soft_integrity "secret1" w st) as (Hok & Hws & _ & Hcon).
  - apply persisted_store_stringify.
  - reflexivity.
  - split; [exact Hok | split; [exact Hws |]].
    rewrite Hcon. rewrite verifyIntegrity_length by (cbn; lia). reflexivity.
Defined.

(** C4 (as stated) fails: a store whose checksum was blanked differs from
    the recomputed hash, and unlocking it raises no warning. *)
Lemma unlockVault_blank_checksum_silent :
  let st := VaultStore.Make [wallet_A; wallet_B] (hashPassword "secret1")
              default_partial "" in
  let w := MkWorld initial_hook (Some (JSON_stringify_store st)) [] in
  persisted_store w = Some st
  /\ VaultStore.masterHash st = hashPassword "secret1"
  /\ VaultStore.checksum st
       <> generateIntegrityHash (VaultStore.wallets st) (VaultStore.settings st)
  /\ fst (unlockVault "secret1" w) = true
  /\ console (snd (unlockVault "secret1" w)) = [].
Proof.
  cbv zeta.
  set (st := VaultStore.Make _ _ _ _).
  set (w := MkWorld _ _ _).
  assert (Hst : persisted_store w = Some st) by apply persisted_store_stringify.
  split; [exact Hst | split; [reflexivity | split]].
  - intros Heq. apply (f_equal String.length) in Heq.
    rewrite generateIntegrityHash_length in Heq. discriminate.
  - rewrite (unlockVault_hash_matches "secret1" w st Hst eq_refl).
    split; reflexivity.
Qed.

Definition backup_json : string :=
  VaultDemo.stringify_backup
    (MkBackup (WalletsArray [wallet_A_renamed; wallet_B]) None).

Definition one_wallet_world : World :=
  addWallet wallet_A (createVault "secret1" (initialize empty_world)).

Lemma parse_backup_json :
  JSON_parse_backup backup_json
    = Ok (MkBackup (WalletsArray [wallet_A_renamed; wallet_B]) None).
Proof. apply VaultDemo.parse_stringify_backup. Qed.

(** Scenario E: a backup of two wallets, one of which has the id of the
    wallet already in the vault (under another name), adds the other one
    only; a text that is not a backup changes nothing. *)
Lemma importVaultData_correct_witness :
  (exists toAdd,
      (forall x, x ∈ toAdd <->
         x ∈ [wallet_A_renamed; wallet_B]
         /\ ~ exists y, y ∈ wallets (hook one_wallet_world)
                        /\ WalletData.id y = WalletData.id x)
      /\ fst (importVaultData backup_json "secret1" one_wallet_world)
           = ImportSuccess (length toAdd)
      /\ wallets (hook (snd (importVaultData backup_json "secret1" one_wallet_world)))
           = wallets (hook one_wallet_world) ++ toAdd)
  /\ (exists e, fst (importVaultData "not a backup" "secret1" one_wallet_world)
                = ImportFailure e)
  /\ snd (importVaultData "not a backup" "secret1" one_wallet_world) = one_wallet_world.
Proof.
  destruct (importVaultData_correct backup_json "secret1" one_wallet_world)
    as [Hadd _].
  destruct (importVaultData_correct "not a backup" "secret1" one_wallet_world)
    as [_ Hfail].
  split.
  - destruct (Hadd _ _ parse_backup_json eq_refl)
      as (toAdd & Hchar & _ & Hres & Hws & _).
    exists toAdd. auto.
  - apply Hfail. exact I.
Defined.

Example scenario_E :
  fst (importVaultData backup_json "secret1" one_wallet_world) = ImportSuccess 1
  /\ wallets (hook (snd (importVaultData backup_json "secret1" one_wallet_world)))
       = [wallet_A; wallet_B].
Proof.
  unfold importVaultData. rewrite parse_backup_json.
  cbn [backup_wallets fst snd].
  unfold persist, localStorage_setItem, setWallets, set_hook. cbn [hook wallets].
  change (wallets (hook one_wallet_world)) with [wallet_A].
  vm_compute. split; reflexivity.
Qed.

Definition session : list Operation :=
  [OpCreateVault "secret1"; OpAddWallet wallet_A; OpLockVault;
   OpUnlockVault "secret1";
   OpUpdateSettings (PartialSettings.Make (Some 5) None None);
   OpImportVaultData backup_json "secret1";
   OpUpdateWalletMetadata "id-2" {[ "notes" := "cold storage" ]};
   OpRemoveWallet "id-1"].

Lemma persisted_checksum_invariant_witness :
  (let w' := run_operation (OpAddWallet wallet_B) one_wallet_world in
   persisted_by (wallets (hook w')) (settings (hook w')) "secret1" w')
  /\ checksum_invariant (run session (initialize empty_world)).
Proof.
  destruct (persisted_checksum_invariant session (initialize empty_world))
    as [Hstep Hrun].
  split.
  - apply (Hstep (OpAddWallet wallet_B) one_wallet_world). reflexivity.
  - apply Hrun. intros st Hst. discriminate Hst.
Defined.

End VaultExamples.

(* ===================================================================== *)
(** ** Network access layer                                               *)
(* ===================================================================== *)

Module NetworkFacts.
Import Network.

Definition failed {A : Type} (a : string * Result A) : Prop :=
  match snd a with
  | Throw _ => True
  | Ok _ => False
  end.

Section WithEnvironment.
Context {env : Environment}.

(** The attempts of a log were made one after the other, each on the
    state of the network that the previous one left. *)
Inductive attempts_made {A : Type}
    (callback : string -> NetState -> Result A * NetState)
    : NetState -> list (string * Result A) -> NetState -> Prop :=
| made_none (n : NetState) : attempts_made callback n [] n
| made_next (n n1 n2 : NetState) (url : string) (r : Result A)
    (rest : list (string * Result A)) :
    attempt callback url n = (r, n1) ->
    attempts_made callback n1 rest n2 ->
    attempts_made callback n ((url, r) :: rest) n2.

(** C3: [fetchWithRetry] tries the endpoints in the listed order, each on
    the network as the previous attempt left it; it returns the result of
    the first attempt that succeeds, all earlier attempts having failed and
    no later endpoint being tried; it fails only when every endpoint of the
    list was tried and failed, and then throws the error of the last attempt
    (for an empty list, where nothing is tried, the error "All RPCs
    failed"). *)
Theorem fetchWithRetry_correct {A : Type}
    (callback : string -> NetState -> Result A * NetState)
    (urls : list string) (n : NetState) :
  let '(attempts, result, n') := fetchWithRetry urls callback n in
  attempts_made callback n attempts n'
  /\ map fst attempts `prefix_of` urls
  /\ match result with
     | Ok v =>
         exists earlier url,
           attempts = earlier ++ [(url, Ok v)] /\ Forall failed earlier
     | Throw e =>
         map fst attempts = urls
         /\ Forall failed attempts
         /\ match last attempts with
            | Some (_, r) => r = Throw e
            | None => e = MkError "All RPCs failed"
            end
     end.
Proof.
  unfold fetchWithRetry.
  change (MkError "All RPCs failed")
    with (default (MkError "All RPCs failed") (@None Error)).
  generalize (@None Error) as lastError. revert n.
  induction urls as [| url rest IH]; intros n lastError.
  - cbn. repeat split; [constructor | reflexivity | constructor].
  - cbn [fetchWithRetry_from].
    destruct (attempt callback url n) as [[v | e] n1] eqn:Hattempt.
    + cbn. split; [| split].
      * econstructor; [exact Hattempt | constructor].
      * apply prefix_cons, prefix_nil.
      * exists [], url. split; [reflexivity | constructor].
    + specialize (IH n1 (Some e)).
      destruct (fetchWithRetry_from rest callback (Some e) n1)
        as [[attempts result] n2].
      cbn in IH |- *. destruct IH as (Hmade & Hprefix & Hresult).
      split; [| split].
      * econstructor; [exact Hattempt | exact Hmade].
      * apply prefix_cons. exact Hprefix.
      * destruct result as [v | e'].
        -- destruct Hresult as (earlier & url' & -> & Hfailed).
           exists ((url, Throw e) :: earlier), url'. split; [reflexivity |].
           constructor; [exact I | exact Hfailed].
        -- destruct Hresult as (Hurls & Hfailed & Hlast).
           split; [now rewrite Hurls | split].
           ++ constructor; [exact I | exact Hfailed].
           ++ destruct attempts as [| a attempts']; cbn in Hlast |- *.
              ** now rewrite Hlast.
              ** destruct (last (a :: attempts')) as [[u r] |] eqn:Hl;
                   [exact Hlast | apply last_None in Hl; discriminate].
Qed.

(** The four operations that throw hand the outcome of [fetchWithRetry]
    to their caller unchanged, and [fetchBalance] turns its failure into
    ['Error']. *)
Lemma with_network_result {A : Type} (networkKey : string)
    (callback : string -> NetState -> Result A * NetState)
    (failure_log fallback : string) (rpcUrls : list string) (w : World) :
  get_property NETWORKS (toLowerCase networkKey) = Own rpcUrls ->
  fst (with_network networkKey callback failure_log fallback w)
    = snd (fst (fetchWithRetry rpcUrls callback (net w))).
Proof.
  intros Hown. unfold with_network. rewrite Hown.
  destruct (fetchWithRetry rpcUrls callback (net w)) as [[attempts [v | e]] n];
    reflexivity.
Qed.

Lemma fetchBalance_on_result (rpcUrls : list string) (tokens : Tokens)
    (address networkKey : string) (w : World) :
  fst (fetchBalance_on rpcUrls tokens address networkKey w)
    = match snd (fst (fetchWithRetry rpcUrls
                        (fun url n => awaited (fetchBalance_attempt tokens address url n))
                        (net w))) with
      | Ok v => Some v
      | Throw _ => None
      end.
Proof.
  unfold fetchBalance_on.
  destruct (fetchWithRetry rpcUrls _ (net w)) as [[attempts [v | e]] n];
    reflexivity.
Qed.

Lemma catch_zero_outcome (p : Settled Z) :
  outcome (catch_zero p)
    = Ok (match outcome p with Ok v => v | Throw _ => 0 end).
Proof. unfold catch_zero. destruct p as [[v | e] t]; reflexivity. Qed.

(** A token balance is always a value: zero when the network has no such
    token or when [balanceOf] fails, the contract's answer otherwise. *)
Lemma token_balance_outcome (token : option string) (url address : string)
    (n : NetState) :
  outcome (fst (token_balance token url address n))
    = Ok (match token with
          | Some contract =>
              if String.eqb contract "" then 0
              else match outcome (fst (balanceOf url contract address n)) with
                   | Ok v => v
                   | Throw _ => 0
                   end
          | None => 0
          end).
Proof.
  unfold token_balance. destruct token as [contract |]; [| reflexivity].
  destruct (String.eqb contract ""); [reflexivity |].
  destruct (balanceOf url contract address n) as [p n1]. cbn [fst].
  apply catch_zero_outcome.
Qed.

Lemma all3_first_rejected (a b c : Settled Z) (e : Error) (y z : Z) :
  outcome a = Throw e -> outcome b = Ok y -> outcome c = Ok z ->
  outcome (all3 a b c) = Throw e.
Proof.
  intros Ha Hb Hc. unfold all3. cbn [flat_map]. rewrite Ha, Hb, Hc. reflexivity.
Qed.

Lemma all3_fulfilled (a b c : Settled Z) (x y z : Z) :
  outcome a = Ok x -> outcome b = Ok y -> outcome c = Ok z ->
  outcome (all3 a b c) = Ok (x, y, z).
Proof. intros Ha Hb Hc. unfold all3. rewrite Ha, Hb, Hc. reflexivity. Qed.

(** The value that a token lookup contributes to the balance. *)
Definition token_value (token : option string) (url address : string)
    (n : NetState) : Z :=
  match outcome (fst (token_balance token url address n)) with
  | Ok v => v
  | Throw _ => 0
  end.

Lemma fetchBalance_attempt_outcome (tokens : Tokens) (address url : string)
    (n : NetState) :
  let q := race_timeout (fst (getBalance url address n)) in
  let n1 := snd (getBalance url address n) in
  let n2 := snd (token_balance (usdt tokens) url address n1) in
  outcome (fst (fetchBalance_attempt tokens address url n))
    = match outcome q with
      | Ok v =>
          Ok (MkAssetValues (formatValue v 18) v
                (formatValue (token_value (usdt tokens) url address n1) 6)
                (formatValue (token_value (usdc tokens) url address n2) 6))
      | Throw e => Throw e
      end.
Proof.
  cbv zeta. unfold fetchBalance_attempt, token_value.
  destruct (getBalance url address n) as [ethQuery n1]. cbn [fst snd].
  pose proof (token_balance_outcome (usdt tokens) url address n1) as Hu.
  destruct (token_balance (usdt tokens) url address n1) as [usdtPromise n2].
  cbn [fst snd] in *.
  pose proof (token_balance_outcome (usdc tokens) url address n2) as Hc.
  destruct (token_balance (usdc tokens) url address n2) as [usdcPromise n3].
  cbn [fst snd outcome] in *.
  destruct (outcome (race_timeout ethQuery)) as [v | e] eqn:Hq.
  - rewrite (all3_fulfilled _ _ _ _ _ _ Hq Hu Hc). rewrite Hu, Hc. reflexivity.
  - rewrite (all3_first_rejected _ _ _ _ _ _ Hq Hu Hc). reflexivity.
Qed.

(** C7: within one endpoint attempt of [fetchBalance], a token [balanceOf]
    that fails counts as a zero balance and the attempt still succeeds when
    the native query answers in time; a native query that fails, or that
    has not settled when the 5000 ms timer fires, fails the attempt; the
    raced native query is settled after 5000 ms at the latest. *)
Theorem fetchBalance_attempt_correct (tokens : Tokens) (address url : string)
    (n : NetState) :
  let ethQuery := fst (getBalance url address n) in
  let n1 := snd (getBalance url address n) in
  let n2 := snd (token_balance (usdt tokens) url address n1) in
  let result := outcome (fst (fetchBalance_attempt tokens address url n)) in
  (forall contract e m,
      contract <> "" ->
      outcome (fst (balanceOf url contract address m)) = Throw e ->
      outcome (fst (token_balance (Some contract) url address m)) = Ok 0)
  /\ (forall v, outcome ethQuery = Ok v -> at_ms ethQuery < 5000 ->
        result = Ok (MkAssetValues (formatValue v 18) v
                       (formatValue (token_value (usdt tokens) url address n1) 6)
                       (formatValue (token_value (usdc tokens) url address n2) 6)))
  /\ (forall e, outcome ethQuery = Throw e -> at_ms ethQuery < 5000 ->
        result = Throw e)
  /\ (5000 <= at_ms ethQuery -> result = Throw (MkError "RPC Timeout"))
  /\ at_ms (race_timeout ethQuery) <= 5000.
Proof.
  cbv zeta. rewrite fetchBalance_attempt_outcome. unfold race_timeout.
  split; [| split; [| split; [| split]]].
  - intros contract e m Hne Hfail. rewrite token_balance_outcome.
    apply String.eqb_neq in Hne. rewrite Hne, Hfail. reflexivity.
  - intros v Hv Ht. apply Z.ltb_lt in Ht. rewrite Ht, Hv. reflexivity.
  - intros e He Ht. apply Z.ltb_lt in Ht. rewrite Ht, He. reflexivity.
  - intros Ht. apply Z.ltb_ge in Ht. rewrite Ht. reflexivity.
  - destruct (at_ms (fst (getBalance url address n)) <? 5000) eqn:Ht; cbn.
    + apply Z.ltb_lt in Ht. lia.
    + lia.
Qed.

(** A key whose lower-case form is no member of [NETWORKS], own or
    inherited, is no member of [TOKEN_ADDRESSES] either. *)
Lemma get_property_undefined {A : Type} (table : list (string * A)) (key : string) :
  get_property table key = Undefined <->
  own_property table key = None
  /\ existsb (String.eqb key) Object_prototype_keys = false.
Proof.
  unfold get_property. destruct (own_property table key); [split; [discriminate | intros [? _]; discriminate] |].
  destruct (existsb (String.eqb key) Object_prototype_keys);
    split; try discriminate; auto. intros [_ ?]. discriminate.
Qed.

Lemma own_property_tokens (key : string) :
  own_property NETWORKS key = None -> own_property TOKEN_ADDRESSES key = None.
Proof.
  unfold NETWORKS, TOKEN_ADDRESSES. cbn [own_property].
  repeat match goal with
         | |- context [String.eqb ?k key] => destruct (String.eqb k key)
         end;
    intros H; try discriminate H; reflexivity.
Qed.

(** C9 (as amended): the network key is looked up in lower case, and the
    lookup also finds the members that an object literal inherits.  When the
    lower-case key is neither a key of [NETWORKS] nor an inherited member,
    [fetchBalance] runs on the mainnet endpoints with no token, while
    [ethCall], [estimateGas], [fetchNonce] and [broadcastTransaction] throw
    "Unsupported network key: " followed by the key as given, without
    touching the network or the log. *)
Theorem unsupported_network_key (networkKey address rawTx : string) (tx : JSON)
    (w : World) :
  get_property NETWORKS (toLowerCase networkKey) = Undefined ->
  let unsupported := MkError ("Unsupported network key: " ++ networkKey) in
  fetchBalance address networkKey w
    = fetchBalance_on
        ["https://eth.llamarpc.com"; "https://rpc.ankr.com/eth";
         "https://1rpc.io/eth"; "https://cloudflare-eth.com"]
        (MkTokens None None) address networkKey w
  /\ ethCall tx networkKey w = (Throw unsupported, w)
  /\ estimateGas tx networkKey w = (Throw unsupported, w)
  /\ fetchNonce address networkKey w = (Throw unsupported, w)
  /\ broadcastTransaction rawTx networkKey w = (Throw unsupported, w).
Proof.
  intros Hundef. cbv zeta.
  unfold ethCall, estimateGas, fetchNonce, broadcastTransaction, with_network.
  rewrite Hundef. repeat split; try reflexivity.
  unfold fetchBalance. rewrite Hundef.
  apply get_property_undefined in Hundef as [Hown Hproto].
  assert (Htok : get_property TOKEN_ADDRESSES (toLowerCase networkKey) = Undefined).
  { apply get_property_undefined. split; [| exact Hproto].
    apply own_property_tokens. exact Hown. }
  rewrite Htok. reflexivity.
Qed.

End WithEnvironment.
End NetworkFacts.

(** ** The network layer on concrete data *)
Module NetworkExamples.
Import Network NetworkFacts NetworkDemo.
#[local] Existing Instance NetworkDemo.environment.

Definition mainnet_tokens : Tokens :=
  MkTokens (Some "0xdac17f958d2ee523a2206206994597c13d831ec7")
           (Some "0xa0b86991c6218b36c1d19d4a2e9eb0ce3606eb48").

(** Scenario C: the first three mainnet endpoints are unreachable, the
    fourth answers, and its result is returned. *)
Example scenario_C :
  fetchWithRetry
    ["https://eth.llamarpc.com"; "https://rpc.ankr.com/eth";
     "https://1rpc.io/eth"; "https://cloudflare-eth.com"]
    (fun url n => call url JNull n) idle
  = ([("https://eth.llamarpc.com", Throw refused);
      ("https://rpc.ankr.com/eth", Throw refused);
      ("https://1rpc.io/eth", Throw refused);
      ("https://cloudflare-eth.com", Ok "0x01")],
     Ok "0x01", idle)
  /\ fst (fetchBalance "0xabc" "mainnet" quiet)
     = Some (MkAssetValues "1.23" 1230000000000000000 "0.00" "2.5").
Proof. split; vm_compute; reflexivity. Qed.

Example all_endpoints_fail :
  fetchWithRetry ["https://arb1.arbitrum.io/rpc"; "https://1rpc.io/arb"]
    (fun url n => call url JNull n) idle
  = ([("https://arb1.arbitrum.io/rpc", Throw refused);
      ("https://1rpc.io/arb", Throw refused)],
     Throw refused, idle)
  /\ fetchWithRetry [] (fun url n => call url JNull n) idle
     = ([], Throw (MkError "All RPCs failed"), idle).
Proof. split; vm_compute; reflexivity. Qed.

(** One attempt on the answering endpoint: the reverted USDT lookup counts
    as zero; the slow and the refused native queries fail the attempt. *)
Lemma fetchBalance_attempt_correct_witness :
  outcome (fst (token_balance (usdt mainnet_tokens)
                  "https://cloudflare-eth.com" "0xabc" idle)) = Ok 0
  /\ outcome (fst (fetchBalance_attempt mainnet_tokens "0xabc"
                     "https://cloudflare-eth.com" idle))
     = Ok (MkAssetValues "1.23" 1230000000000000000 "0.00" "2.5")
  /\ outcome (fst (fetchBalance_attempt mainnet_tokens "0xbad"
                     "https://cloudflare-eth.com" idle))
     = Throw (MkError "bad address")
  /\ outcome (fst (fetchBalance_attempt mainnet_tokens "0xslow"
                     "https://cloudflare-eth.com" idle))
     = Throw (MkError "RPC Timeout").
Proof.
  destruct (fetchBalance_attempt_correct mainnet_tokens "0xabc"
              "https://cloudflare-eth.com" idle) as (Htoken & Hok & _).
  destruct (fetchBalance_attempt_correct mainnet_tokens "0xbad"
              "https://cloudflare-eth.com" idle) as (_ & _ & Hbad & _).
  destruct (fetchBalance_attempt_correct mainnet_tokens "0xslow"
              "https://cloudflare-eth.com" idle) as (_ & _ & _ & Hslow & _).
  split; [| split; [| split]].
  - apply (Htoken _ (MkError "execution reverted") idle); [discriminate | reflexivity].
  - apply (Hok 1230000000000000000); [reflexivity | vm_compute; reflexivity].
  - apply Hbad; [reflexivity | vm_compute; reflexivity].
  - apply Hslow. vm_compute. discriminate.
Defined.

Lemma unsupported_network_key_witness :
  fetchBalance "0xabc" "Goerli" quiet
    = fetchBalance_on
        ["https://eth.llamarpc.com"; "https://rpc.ankr.com/eth";
         "https://1rpc.io/eth"; "https://cloudflare-eth.com"]
        (MkTokens None None) "0xabc" "Goerli" quiet
  /\ ethCall JNull "Goerli" quiet
     = (Throw (MkError "Unsupported network key: Goerli"), quiet)
  /\ broadcastTransaction "0x02f8" "Goerli" quiet
     = (Throw (MkError "Unsupported network key: Goerli"), quiet).
Proof.
  destruct (unsupported_network_key "Goerli" "0xabc" "0x02f8" JNull quiet)
    as (Hbalance & Hcall & _ & _ & Hbroadcast); [reflexivity |].
  auto.
Defined.

(** C9 (as stated) fails.  "Mainnet" is no key of the table, yet the
    lookup is made in lower case and [ethCall] goes to the mainnet
    endpoints.  "constructor" is no key of the table either, yet the lookup
    finds the inherited member: [fetchBalance] does not fall back to mainnet
    (where the query would succeed) and [ethCall] fails with a type error,
    not with "Unsupported network key". *)
Lemma network_key_lookup_counterexample :
  own_property NETWORKS "Mainnet" = None
  /\ ethCall JNull "Mainnet" quiet = (Ok "0x01", quiet)
  /\ own_property NETWORKS "constructor" = None
  /\ fst (fetchBalance "0xabc" "constructor" quiet) = None
  /\ fst (fetchBalance_on
            ["https://eth.llamarpc.com"; "https://rpc.ankr.com/eth";
             "https://1rpc.io/eth"; "https://cloudflare-eth.com"]
            (MkTokens None None) "0xabc" "constructor" quiet)
     = Some (MkAssetValues "1.23" 1230000000000000000 "0.00" "0.00")
  /\ fst (ethCall JNull "constructor" quiet) = Throw (MkError "urls is not iterable").
Proof. repeat split; vm_compute; reflexivity. Qed.

End NetworkExamples.

(* ===================================================================== *)
(** ** Signing operations and the request dispatcher                      *)
(* ===================================================================== *)

Module SignerFacts.
Import Signer.

Definition signing_types : list string :=
  ["personal_sign"; "eth_signTransaction"; "eth_signTypedData"].

Definition is_decryption (c : Call) : Prop :=
  match c with
  | decryptData_called _ _ => True
  | _ => False
  end.

Section WithServices.
Context {ethers : Ethers}.
Variable wallets : list WalletData.t.
Variable password : string.
Variable decryptData : string -> string -> Result string.
Variable JSON_parse : string -> option ApiRequest.
Variable vault_management : ApiRequest -> M ServiceResponse.
Variable chain_query : ApiRequest -> string -> M ServiceResponse.

Lemma find_wallet_unresolved (label : string) :
  (forall w, In w wallets -> WalletData.name w <> label) ->
  find_wallet wallets label = None.
Proof.
  intros Hno. unfold find_wallet.
  destruct (List.find _ wallets) as [w |] eqn:Hfind; [| reflexivity].
  apply List.find_some in Hfind as [Hin Hname].
  apply String.eqb_eq in Hname. exfalso. exact (Hno w Hin Hname).
Qed.

Lemma signing_type_routed (t : string) :
  In t signing_types ->
  String.prefix "vault_" t = false /\ existsb (String.eqb t) read_only = false.
Proof.
  intros [<- | [<- | [<- | []]]]; split; reflexivity.
Qed.

Definition unresolved (request : ApiRequest) : Error :=
  MkError ("Operation " ++ type request
           ++ " requires a valid 'walletLabel' present in the vault.")%string.

Lemma signature_method_unresolved (request : ApiRequest) (m : Machine) :
  (forall w, In w wallets -> walletLabel request <> Some (WalletData.name w)) ->
  signature_method wallets password decryptData request m
    = (Throw (unresolved request), m).
Proof.
  intros Hlabel. unfold signature_method.
  destruct (walletLabel request) as [label |]; [| reflexivity].
  destruct (String.eqb label ""); [reflexivity |].
  rewrite find_wallet_unresolved; [reflexivity |].
  intros w Hin Hname. apply (Hlabel w Hin). now rewrite Hname.
Qed.

(** C5 (as amended): a request of one of the three signing types whose
    [walletLabel] is the name of no wallet of the vault is answered with the
    error response whose message is "Operation <type> requires a valid
    'walletLabel' present in the vault." (the message names the operation
    and the member at fault, not the label that was given); nothing is
    decrypted: the only call made is the one to the system logger. *)
Theorem unresolved_label_rejected (requestJson : string) (request : ApiRequest)
    (m : Machine) :
  JSON_parse requestJson = Some request ->
  In (type request) signing_types ->
  (forall w, In w wallets -> walletLabel request <> Some (WalletData.name w)) ->
  let msg := message (unresolved request) in
  let made := [logger_log ("Op failed: " ++ msg)%string "error" "Signer"] in
  handleProcessRequest wallets password decryptData JSON_parse
    vault_management chain_query requestJson m
  = (Ok (errorResponse (unresolved request)),
     MkMachine
       ["Received API request...";
        ("Payload parsed. Type: " ++ type request)%string;
        ("Error: " ++ msg)%string]
       (calls m ++ made) None)
  /\ Forall (fun c => ~ is_decryption c) made.
Proof.
  intros Hparse Htype Hlabel. cbv zeta. split.
  - apply signing_type_routed in Htype as [Hvault Hread].
    unfold handleProcessRequest.
    unfold mbind, M_bind, bind, try_catch, emit, addLog, setLogs,
      setLastSignature, mret, M_ret, ret, throw.
    cbn [logs calls lastSignature]. rewrite Hparse. cbn [logs calls lastSignature].
    rewrite Hvault, Hread.
    rewrite (signature_method_unresolved request _ Hlabel).
    cbn [logs calls lastSignature app]. reflexivity.
  - repeat constructor; cbn; auto.
Qed.

(** The text of the validation error lists the three members. *)
Lemma typed_data_incomplete_names :
  includes (message typed_data_incomplete) "domain" = true
  /\ includes (message typed_data_incomplete) "types" = true
  /\ includes (message typed_data_incomplete) "value" = true.
Proof. repeat split; reflexivity. Qed.

Lemma signTypedData_members (privateKey : string) (payload : option JSON)
    (wallet : Wallet) (domain types value : option JSON) :
  Wallet_new privateKey = Ok wallet ->
  get payload "domain" = Ok domain ->
  get payload "types" = Ok types ->
  get payload "value" = Ok value ->
  signTypedData privateKey payload
    = if truthy domain && truthy types && truthy value
      then Wallet_signTypedData wallet domain types value
      else Throw typed_data_incomplete.
Proof.
  intros Hw Hd Ht Hv. unfold signTypedData. rewrite Hw, Hd, Ht, Hv.
  destruct (truthy domain), (truthy types), (truthy value); reflexivity.
Qed.

(** The wallet is made before the payload is looked at: a key that the
    constructor refuses fails with the constructor's error. *)
Lemma signTypedData_key_refused (privateKey : string) (payload : option JSON)
    (e : Error) :
  Wallet_new privateKey = Throw e -> signTypedData privateKey payload = Throw e.
Proof. intros Hw. unfold signTypedData. now rewrite Hw. Qed.

(** C6 (as amended): with a private key that the wallet constructor
    accepts and a payload that is neither [undefined] nor [null],
    [signTypedData] throws the validation error, whose message lists the
    names [domain], [types] and [value], when one of the three members is
    missing or falsy ([null], [false], 0 or the empty string); when all
    three are truthy it passes them to the wallet and returns what signing
    returns. *)
Theorem signTypedData_validation (privateKey : string) (payload : option JSON)
    (wallet : Wallet) (domain types value : option JSON) :
  Wallet_new privateKey = Ok wallet ->
  get payload "domain" = Ok domain ->
  get payload "types" = Ok types ->
  get payload "value" = Ok value ->
  (truthy domain = false \/ truthy types = false \/ truthy value = false ->
     signTypedData privateKey payload = Throw typed_data_incomplete
     /\ includes (message typed_data_incomplete) "domain" = true
     /\ includes (message typed_data_incomplete) "types" = true
     /\ includes (message typed_data_incomplete) "value" = true)
  /\ (truthy domain = true -> truthy types = true -> truthy value = true ->
        signTypedData privateKey payload
          = Wallet_signTypedData wallet domain types value).
Proof.
  intros Hw Hd Ht Hv.
  rewrite (signTypedData_members _ _ _ _ _ _ Hw Hd Ht Hv). split.
  - intros Hfalsy. split; [| exact typed_data_incomplete_names].
    destruct Hfalsy as [-> | [-> | ->]]; rewrite ?andb_false_r; reflexivity.
  - intros -> -> ->. reflexivity.
Qed.

End WithServices.
End SignerFacts.

(** ** The dispatcher on concrete data *)
Module SignerExamples.
Import Signer SignerFacts SignerDemo.

Definition typed_data : JSON :=
  JObject [("domain", JObject [("name", JString "Ether Mail")]);
           ("types", JObject [("Person", JArray [])]);
           ("value", JObject [("name", JString "Bob")])].

(** Scenario D: a signing request for a label that the vault does not
    hold. *)
Lemma unresolved_label_rejected_witness :
  dispatch (sign_request "eth_signTransaction" "Treasury-7" (JObject []))
  = (Ok (errorResponse
           (MkError "Operation eth_signTransaction requires a valid 'walletLabel' present in the vault.")),
     MkMachine
       ["Received API request...";
        "Payload parsed. Type: eth_signTransaction";
        "Error: Operation eth_signTransaction requires a valid 'walletLabel' present in the vault."]
       [logger_log "Op failed: Operation eth_signTransaction requires a valid 'walletLabel' present in the vault." "error" "Signer"]
       None).
Proof.
  unfold dispatch.
  apply (unresolved_label_rejected vault "secret1" decrypt
           (fun _ => Some (sign_request "eth_signTransaction" "Treasury-7" (JObject [])))
           no_vault_method no_chain_query "(request text)"
           (sign_request "eth_signTransaction" "Treasury-7" (JObject [])) start).
  - reflexivity.
  - right. left. reflexivity.
  - intros w [<- | []]. discriminate.
Defined.

(** The same request for the label of a wallet that the vault holds is
    signed, after one decryption. *)
Example resolved_label_signed :
  dispatch (sign_request "eth_signTransaction" "A" (JObject [("chainId", JNumber 1)]))
  = (Ok (MkServiceResponse "success" (Some "eth_signTransaction") (Some "A")
           None (Some "0x02f8signed") (Some "0xhash") None None),
     MkMachine
       ["Received API request...";
        "Payload parsed. Type: eth_signTransaction";
        "Resolved Wallet Label 'A'";
        "Decrypting key for A...";
        "Decryption successful.";
        "Signing transaction...";
        "Signature generated successfully."]
       [decryptData_called "blob-A" "secret1";
        logger_log "Signed eth_signTransaction with A" "success" "Signer"]
       (Some ("0x02f8signed", Some (JNumber 1)))).
Proof. vm_compute. reflexivity. Qed.

(** C5 (as stated) fails: the error message does not contain the label
    that could not be resolved, and two requests that differ in the label
    only are answered alike. *)
Lemma unresolved_label_not_in_message :
  let answer label :=
    fst (dispatch (sign_request "eth_signTransaction" label (JObject []))) in
  (exists response msg,
      answer "Treasury-7" = Ok response
      /\ error response = Some msg
      /\ includes msg "Treasury-7" = false)
  /\ answer "Treasury-7" = answer "Cold-Storage".
Proof.
  cbv zeta. split.
  - eexists. eexists. split; [vm_compute; reflexivity |].
    split; [reflexivity | vm_compute; reflexivity].
  - vm_compute. reflexivity.
Qed.

Lemma signTypedData_validation_witness :
  signTypedData private_key
    (Some (JObject [("domain", JObject []); ("value", JObject [])]))
    = Throw typed_data_incomplete
  /\ signTypedData private_key (Some typed_data) = Ok "0xsigned-typed-data".
Proof.
  split.
  - apply (signTypedData_validation (ethers := SignerDemo.ethers) private_key
             (Some (JObject [("domain", JObject []); ("value", JObject [])]))
             (private_key : @Wallet SignerDemo.ethers)
             (Some (JObject [])) None (Some (JObject [])));
      try reflexivity.
    right. left. reflexivity.
  - apply (signTypedData_validation (ethers := SignerDemo.ethers) private_key
             (Some typed_data) (private_key : @Wallet SignerDemo.ethers)
             (Some (JObject [("name", JString "Ether Mail")]))
             (Some (JObject [("Person", JArray [])]))
             (Some (JObject [("name", JString "Bob")])));
      reflexivity.
Defined.

(** C6 (as stated) fails: a payload that contains all three members, one
    of them with the value 0, is refused with the validation error; with a
    key that the wallet constructor refuses, or with no payload at all, a
    request that lacks members fails with another error than the validation
    error. *)
Lemma signTypedData_rejects_present_member :
  let payload :=
    JObject [("domain", JObject [("name", JString "Ether Mail")]);
             ("types", JObject [("Person", JArray [])]);
             ("value", JNumber 0)] in
  (get (Some payload) "domain" = Ok (Some (JObject [("name", JString "Ether Mail")]))
   /\ get (Some payload) "types" = Ok (Some (JObject [("Person", JArray [])]))
   /\ get (Some payload) "value" = Ok (Some (JNumber 0))
   /\ signTypedData private_key (Some payload) = Throw typed_data_incomplete)
  /\ signTypedData "not-a-key" (Some (JObject []))
     = Throw (MkError "invalid private key")
  /\ signTypedData private_key None
     = Throw (MkError "Cannot read properties of undefined (reading 'domain')").
Proof. repeat split; reflexivity. Qed.

End SignerExamples.

(* ===================================================================== *)
(** ** More on the vault session manager                                  *)
(* ===================================================================== *)

Module VaultSession.
Import Vault VaultFacts.

Lemma filter_all {A : Type} (P : A -> Prop) `{!forall x, Decision (P x)}
    (l : list A) :
  (forall x, x ∈ l -> P x) -> filter P l = l.
Proof.
  induction l as [| a l IH]; intros Hall; [reflexivity |].
  rewrite filter_cons_True by (apply Hall; left).
  f_equal. apply IH. intros x Hx. apply Hall. now right.
Qed.

Lemma filter_none {A : Type} (P : A -> Prop) `{!forall x, Decision (P x)} (l : list A) :
  (forall x, x ∈ l -> ~ P x) -> filter P l = [].
Proof.
  induction l as [| a l IH]; intros Hl; [reflexivity |].
  rewrite filter_cons_False by (apply Hl; left).
  apply IH. intros x Hx. apply Hl. now right.
Qed.

Section WithPlatform.
Context {platform : Platform}.

Lemma unlockVault_result (password : string) (w : World) (st : VaultStore.t) :
  persisted_store w = Some st ->
  fst (unlockVault password w)
    = String.eqb (VaultStore.masterHash st) (hashPassword password).
Proof.
  unfold unlockVault, persisted_store.
  destruct (localStorage w) as [stored |]; [| discriminate].
  destruct (truthy stored); [| discriminate]. cbn [negb].
  intros ->. destruct (String.eqb _ _); [| reflexivity].
  destruct (truthy _ && _); reflexivity.
Qed.

Lemma persisted_by_store ws s password (w : World) :
  persisted_by ws s password w ->
  persisted_store w
    = Some (VaultStore.Make ws (hashPassword password) (PartialSettings.of_settings s)
              (generateIntegrityHash ws (PartialSettings.of_settings s))).
Proof.
  unfold persisted_by. intros Hls. destruct w as [h ls c]. cbn in Hls. subst ls.
  apply persisted_store_stringify.
Qed.

(** X1: locking after any call that persists, and unlocking again: the
    password is accepted exactly when it hashes like the password under
    which the call persisted (the session password, or the one given to
    [createVault] or [importVaultData]); the wallets and settings that come
    back are those the call left in working memory, and no integrity warning
    is raised. *)
Theorem unlock_after_persist (op : Operation) (w : World) (password : string) :
  persists op w = true ->
  let saved := run_operation op w in
  let locked := lockVault saved in
  (fst (unlockVault password locked) = true
   <-> hashPassword password = hashPassword (password_used op w))
  /\ (hashPassword password = hashPassword (password_used op w) ->
      let w' := snd (unlockVault password locked) in
      wallets (hook w') = wallets (hook saved)
      /\ settings (hook w') = settings (hook saved)
      /\ masterPassword (hook w') = password
      /\ isLocked (hook w') = false
      /\ console w' = console saved).
Proof.
  intros Hp. cbv zeta.
  pose proof (run_operation_persists op w Hp) as Hby. cbv zeta in Hby.
  apply persisted_by_store in Hby.
  set (saved := run_operation op w) in *.
  assert (Hst : persisted_store (lockVault saved) = persisted_store saved) by reflexivity.
  rewrite <- Hst in Hby. split.
  - rewrite (unlockVault_result _ _ _ Hby). cbn [VaultStore.masterHash].
    rewrite String.eqb_eq. split; intros H; now rewrite H.
  - intros Hhash.
    rewrite (unlockVault_hash_matches password _ _ Hby)
      by (cbn [VaultStore.masterHash]; now rewrite Hhash).
    unfold verifyIntegrity. cbn [VaultStore.checksum VaultStore.wallets VaultStore.settings].
    rewrite String.eqb_refl, andb_false_r. cbn.
    rewrite spread_of_settings. auto.
Qed.

(** X2: [removeWallet] keeps, in their order, exactly the wallets whose id is
    not the given one; with an id that no wallet has it keeps them all; it
    undoes an [addWallet] of a wallet whose id was not in use; the store it
    writes holds the wallets it keeps. *)
Theorem removeWallet_correct (id : string) (w : World) :
  let kept := wallets (hook (removeWallet id w)) in
  (forall x, x ∈ kept <-> x ∈ wallets (hook w) /\ WalletData.id x <> id)
  /\ sublist kept (wallets (hook w))
  /\ ((forall x, x ∈ wallets (hook w) -> WalletData.id x <> id) ->
      kept = wallets (hook w))
  /\ (forall x, WalletData.id x = id ->
        (forall y, y ∈ wallets (hook w) -> WalletData.id y <> id) ->
        wallets (hook (removeWallet id (addWallet x w))) = wallets (hook w))
  /\ VaultStore.wallets <$> persisted_store (removeWallet id w) = Some kept.
Proof.
  cbv zeta.
  assert (Hkept : wallets (hook (removeWallet id w))
                  = filter (fun x => WalletData.id x <> id) (wallets (hook w)))
    by reflexivity.
  rewrite !Hkept.
  split; [| split; [| split; [| split]]].
  - intros x. rewrite list_elem_of_filter. tauto.
  - apply sublist_filter.
  - intros Hno. apply filter_all. exact Hno.
  - intros x Hx Hno.
    change (wallets (hook (removeWallet id (addWallet x w))))
      with (filter (fun y => WalletData.id y <> id) (wallets (hook w) ++ [x])).
    rewrite filter_app, (filter_cons_False _ x) by (intros H; apply H; exact Hx).
    rewrite filter_nil, app_nil_r. apply filter_all. exact Hno.
  - unfold removeWallet. rewrite persisted_store_persist. reflexivity.
Qed.



Lemma spread_spread (s : VaultSettings.t) (p : PartialSettings.t) :
  PartialSettings.spread (PartialSettings.spread s p) p = PartialSettings.spread s p.
Proof. destruct s, p as [[a |] [e |] [d |]]; reflexivity. Qed.

(** X4: [updateSettings] replaces the members that the update carries and
    keeps the others; it leaves the wallets alone; applied twice with the
    same update it leaves the same world as applied once. *)
Theorem updateSettings_idempotent (p : PartialSettings.t) (w : World) :
  let w' := updateSettings p w in
  updateSettings p w' = w'
  /\ wallets (hook w') = wallets (hook w)
  /\ (PartialSettings.autoLockMinutes p = None ->
      VaultSettings.autoLockMinutes (settings (hook w'))
        = VaultSettings.autoLockMinutes (settings (hook w)))
  /\ (PartialSettings.enableLogging p = None ->
      VaultSettings.enableLogging (settings (hook w'))
        = VaultSettings.enableLogging (settings (hook w)))
  /\ (PartialSettings.attributeDefinitions p = None ->
      VaultSettings.attributeDefinitions (settings (hook w'))
        = VaultSettings.attributeDefinitions (settings (hook w))).
Proof.
  cbv zeta. split; [| split; [reflexivity |]].
  - unfold updateSettings, persist, localStorage_setItem, setSettings, set_hook.
    cbn [hook settings wallets masterPassword localStorage console isLocked
         hasVault loading].
    rewrite spread_spread. reflexivity.
  - unfold updateSettings. cbn. repeat split; intros ->; reflexivity.
Qed.

(** X5: [removeAttribute] leaves no definition with the given key, keeps the
    other definitions in their order, and touches neither the other
    settings nor the wallets: metadata stored under the removed key stays in
    the wallets. *)
Theorem removeAttribute_correct (key : string) (w : World) :
  let w' := SettingsPanel.removeAttribute key w in
  let before := VaultSettings.attributeDefinitions (settings (hook w)) in
  let after := VaultSettings.attributeDefinitions (settings (hook w')) in
  (forall d, d ∈ after <-> d ∈ before /\ AttributeDefinition.key d <> key)
  /\ sublist after before
  /\ VaultSettings.autoLockMinutes (settings (hook w'))
       = VaultSettings.autoLockMinutes (settings (hook w))
  /\ VaultSettings.enableLogging (settings (hook w'))
       = VaultSettings.enableLogging (settings (hook w))
  /\ wallets (hook w') = wallets (hook w)
  /\ VaultStore.wallets <$> persisted_store w' = Some (wallets (hook w)).
Proof.
  cbv zeta.
  assert (Hafter :
    VaultSettings.attributeDefinitions
      (settings (hook (SettingsPanel.removeAttribute key w)))
    = filter (fun d => AttributeDefinition.key d <> key)
        (VaultSettings.attributeDefinitions (settings (hook w)))) by reflexivity.
  rewrite !Hafter. split; [| split; [| repeat split]].
  - intros d. rewrite list_elem_of_filter. tauto.
  - apply sublist_filter.
  - unfold SettingsPanel.removeAttribute, updateSettings.
    rewrite persisted_store_persist. reflexivity.
Qed.

(** X6: importing the same backup a second time adds nothing: all its ids are
    in the vault after the first import. *)
Theorem importVaultData_again (jsonString p q : string) (w : World)
    (backup : Backup) (ws : list WalletData.t) :
  JSON_parse_backup jsonString = Ok backup ->
  backup_wallets backup = WalletsArray ws ->
  let w1 := snd (importVaultData jsonString p w) in
  fst (importVaultData jsonString q w1) = ImportSuccess 0
  /\ wallets (hook (snd (importVaultData jsonString q w1))) = wallets (hook w1).
Proof.
  intros Hparse Hws. cbv zeta. unfold importVaultData. rewrite Hparse, Hws.
  cbn [fst snd hook wallets setWallets set_hook persist localStorage_setItem].
  set (current := wallets (hook w)).
  set (toAdd := filter
        (fun x => WalletData.id x ∉
           (list_to_set (map WalletData.id current) : gset string)) ws).
  assert (Hnone : filter
            (fun x => WalletData.id x ∉
               (list_to_set (map WalletData.id (current ++ toAdd)) : gset string))
            ws = []).
  { apply filter_none. intros x Hx Hnot.
    apply Hnot. rewrite list_to_set_ids.
    destruct (decide (WalletData.id x ∈
                (list_to_set (map WalletData.id current) : gset string)))
      as [Hin | Hout].
    - apply list_to_set_ids in Hin as (y & Hy & Hid).
      exists y. split; [apply elem_of_app; now left | exact Hid].
    - exists x. split; [| reflexivity]. apply elem_of_app. right.
      apply list_elem_of_filter. split; [exact Hout | exact Hx]. }
  rewrite Hnone. cbn. rewrite app_nil_r. split; reflexivity.
Qed.

End WithPlatform.
End VaultSession.

(* ===================================================================== *)
(** ** More on encrypted blobs                                            *)
(* ===================================================================== *)

Module CryptoRoundTrip.
Import TextCodec TextCodecFacts Crypto CryptoFacts.

Definition code_unit (c : Z) : Prop := 0 <= c <= 0xFFFF.

(** Whatever the pairing of its surrogates, a string of 16-bit code units
    is converted to scalar values. *)
Lemma to_USVString_code_units (s : DOMString) :
  Forall code_unit s -> Forall is_scalar (to_USVString s).
Proof.
  induction s as [| c | c d rest IH1 IH2] using DOMString_pair_ind.
  - constructor.
  - intros Hs. apply Forall_inv in Hs. unfold code_unit in Hs.
    cbn [to_USVString]; unfold is_lead_surrogate, is_trail_surrogate.
    repeat step_if; bool_to_prop;
      (constructor; [unfold is_scalar; arith | constructor]).
  - intros Hs. pose proof (Forall_inv Hs) as Hc.
    pose proof (Forall_inv_tail Hs) as Hrest.
    pose proof (Forall_inv_tail Hrest) as Hrest'.
    unfold code_unit in Hc.
    rewrite to_USVString_step.
    unfold is_lead_surrogate, is_trail_surrogate.
    repeat step_if; bool_to_prop;
      (constructor; [rewrite ?land_0x3FF; unfold is_scalar; arith | auto]).
Qed.

Lemma well_formed_cons (c : Z) (rest : DOMString) :
  is_lead_surrogate c = false ->
  well_formed (c :: rest)
    = negb (is_trail_surrogate c) && (0 <=? c) && (c <=? 0xFFFF) && well_formed rest.
Proof. intros Hc. destruct rest; cbn [well_formed]; rewrite Hc; reflexivity. Qed.

Lemma well_formed_utf16 (cps : list Z) :
  Forall is_scalar cps -> well_formed (flat_map utf16_encode cps) = true.
Proof.
  induction 1 as [| cp cps Hcp _ IH]; [reflexivity |].
  cbn [flat_map]. unfold is_scalar in Hcp. unfold utf16_encode at 1.
  step_if; cbn [app]; bool_to_prop.
  - rewrite well_formed_cons, IH.
    + unfold is_trail_surrogate.
      repeat match goal with
             | |- context [?a <=? ?b] => destruct (Z.leb_spec a b)
             end; cbn; try reflexivity; lia.
    + unfold is_lead_surrogate.
      repeat match goal with
           | |- context [?a <=? ?b] => destruct (Z.leb_spec a b)
           end; cbn; try reflexivity; lia.
  - rewrite well_formed_step. unfold is_lead_surrogate, is_trail_surrogate.
    rewrite IH.
    rewrite ?Z.shiftr_div_pow2, ?land_0x3FF by lia. change (2 ^ 10) with 1024.
    assert (H1 : 0 <= (cp - 0x10000) / 1024 <= 0x3FF)
      by (Z.div_mod_to_equations; lia).
    assert (H2 : 0 <= (cp - 0x10000) mod 1024 <= 0x3FF)
      by (Z.div_mod_to_equations; lia).
    set (hi := (cp - 0x10000) / 1024) in *.
    set (lo := (cp - 0x10000) mod 1024) in *.
    repeat match goal with
           | |- context [?a <=? ?b] => destruct (Z.leb_spec a b)
           end; cbn; try reflexivity; lia.
Qed.

Lemma strip_BOM_scalar (cps : list Z) :
  Forall is_scalar cps -> Forall is_scalar (strip_BOM cps).
Proof.
  intros Hs. destruct cps as [| cp rest]; [constructor |].
  cbn [strip_BOM]. destruct (cp =? 0xFEFF); [| exact Hs].
  exact (Forall_inv_tail Hs).
Qed.

Section WithPlatform.
Context {platform : WebPlatform}.

(** X7: for every plaintext of 16-bit code units, decrypting a fresh blob
    with the password that made it succeeds, and returns the plaintext in
    which every unpaired surrogate is replaced by U+FFFD and from which one
    leading U+FEFF is dropped; what comes back is a well-formed string, and
    it is the plaintext itself when that was well formed and did not begin
    with U+FEFF. *)
Theorem decryptData_encryptData_normal_form (P W : DOMString) (salt iv : bytes) :
  Forall code_unit P ->
  byte_array salt -> length salt = 16%nat ->
  byte_array iv -> length iv = 12%nat ->
  let back := flat_map utf16_encode (strip_BOM (to_USVString P)) in
  decryptData (encryptData P W salt iv) W = Ok back
  /\ well_formed back = true
  /\ (well_formed P = true -> starts_with_BOM P = false -> back = P).
Proof.
  intros HP Hs Ls Hi Li. cbv zeta.
  pose proof (to_USVString_code_units P HP) as Hsc.
  split; [| split].
  - rewrite decryptData_encryptData_codec; try assumption.
    + unfold TextDecoder_decode, TextEncoder_encode.
      rewrite utf8_decode_encode by assumption. reflexivity.
    + unfold TextEncoder_encode, byte_array.
      induction Hsc as [| cp cps Hcp _ IH]; [constructor |].
      cbn [flat_map]. apply Forall_app. split; [| exact IH].
      apply utf8_encode_bytes. exact Hcp.
  - apply well_formed_utf16, strip_BOM_scalar. exact Hsc.
  - intros Hwf Hbom. rewrite strip_BOM_to_USVString by assumption.
    apply to_USVString_utf16. assumption.
Qed.

End WithPlatform.

Lemma decryptData_encryptData_normal_form_witness :
  let P := [0xFEFF; 0xD83D; 0x41; 0xDE00] in
  let W := of_string "secret1" in
  Forall code_unit P
  /\ decryptData (platform := Demo.platform)
       (encryptData (platform := Demo.platform) P W demo_salt demo_iv) W
     = Ok [0xFFFD; 0x41; 0xFFFD].
Proof.
  cbv zeta.
  assert (HP : Forall code_unit [0xFEFF; 0xD83D; 0x41; 0xDE00])
    by (repeat constructor; unfold code_unit; lia).
  split; [exact HP |].
  destruct (decryptData_encryptData_normal_form (platform := Demo.platform)
              [0xFEFF; 0xD83D; 0x41; 0xDE00] (of_string "secret1")
              demo_salt demo_iv HP) as [Hback _];
    [byte_list | reflexivity | byte_list | reflexivity | exact Hback].
Defined.

End CryptoRoundTrip.

(** ** The session on concrete data *)
Module VaultSessionExamples.
Import Vault VaultFacts VaultSession VaultExamples.
#[local] Existing Instance VaultDemo.platform.

(** A second wallet is added to an open vault, the vault is locked: the
    master password opens it again with both wallets. *)
Lemma unlock_after_persist_witness :
  let saved := run_operation (OpAddWallet wallet_B) one_wallet_world in
  persists (OpAddWallet wallet_B) one_wallet_world = true
  /\ fst (unlockVault "secret1" (lockVault saved)) = true
  /\ wallets (hook (snd (unlockVault "secret1" (lockVault saved))))
     = [wallet_A; wallet_B].
Proof.
  cbv zeta.
  destruct (unlock_after_persist (OpAddWallet wallet_B) one_wallet_world
              "secret1" eq_refl) as [Hiff Hstate].
  split; [reflexivity | split].
  - apply Hiff. reflexivity.
  - destruct (Hstate eq_refl) as [Hws _]. exact Hws.
Defined.

(** The backup of scenario E imported twice. *)
Lemma importVaultData_again_witness :
  let once := snd (importVaultData backup_json "secret1" one_wallet_world) in
  JSON_parse_backup backup_json
    = Ok (MkBackup (WalletsArray [wallet_A_renamed; wallet_B]) None)
  /\ fst (importVaultData backup_json "secret1" once) = ImportSuccess 0.
Proof.
  cbv zeta. split; [exact parse_backup_json |].
  destruct (importVaultData_again backup_json "secret1" "secret1"
              one_wallet_world _ _ parse_backup_json eq_refl) as [Hcount _].
  exact Hcount.
Defined.

End VaultSessionExamples.

(* ===================================================================== *)
(** ** More on the network layer                                          *)
(* ===================================================================== *)

Module FormatFacts.
Import Network.

Definition no_char (c : ascii) (s : string) : Prop :=
  ~ In c (list_ascii_of_string s).

Lemma append_cons (x : ascii) (a b : string) :
  (String x a ++ b = String x (a ++ b))%string.
Proof. reflexivity. Qed.

Lemma append_nil (a : string) : (a ++ "" = a)%string.
Proof.
  induction a as [| x a IH]; [reflexivity |]. rewrite append_cons. now f_equal.
Qed.

Lemma append_assoc (a b c : string) : ((a ++ b) ++ c = a ++ (b ++ c))%string.
Proof.
  induction a as [| x a IH]; [reflexivity |].
  rewrite !append_cons. now f_equal.
Qed.

Lemma prefix_append (a t : string) : String.prefix a (a ++ t) = true.
Proof.
  induction a as [| x a IH]; [destruct t; reflexivity |].
  rewrite append_cons. cbn [String.prefix].
  destruct (ascii_dec x x) as [_ | Hne]; [exact IH | contradiction].
Qed.

Lemma prefix_refl (a : string) : String.prefix a a = true.
Proof. rewrite <- (append_nil a) at 2. apply prefix_append. Qed.

Lemma substring_prefix (n : nat) (s : string) :
  exists t, s = (substring 0 n s ++ t)%string.
Proof.
  revert s. induction n as [| n IH]; intros s.
  - exists s. destruct s; reflexivity.
  - destruct s as [| a s]; [exists ""%string; reflexivity |].
    destruct (IH s) as [t Ht]. exists t. cbn [substring].
    rewrite append_cons. now f_equal.
Qed.

Lemma substring_length (n : nat) (s : string) :
  (String.length (substring 0 n s) <= n)%nat.
Proof.
  revert s. induction n as [| n IH]; intros s.
  - destruct s; cbn; lia.
  - destruct s as [| a s]; cbn; [lia |]. specialize (IH s). lia.
Qed.

Lemma split_on_head (c : ascii) (s piece : string) (pieces : list string) :
  split_on c s = piece :: pieces -> exists t, s = (piece ++ t)%string.
Proof.
  revert piece pieces. induction s as [| a s IH]; intros piece pieces.
  - cbn. intros [= <- <-]. exists ""%string. reflexivity.
  - cbn [split_on]. destruct (Ascii.eqb a c).
    + intros [= <- _]. exists (String a s). reflexivity.
    + destruct (split_on c s) as [| p ps] eqn:Hs.
      * intros [= <- <-]. exists s. reflexivity.
      * intros [= <- <-]. destruct (IH p ps eq_refl) as [t Ht].
        exists t. rewrite append_cons. now f_equal.
Qed.

(** The first two pieces of a split are what stands before and after the
    first occurrence of the character. *)
Lemma split_on_first (c : ascii) (s whole fraction : string) (rest : list string) :
  split_on c s = whole :: fraction :: rest ->
  no_char c whole
  /\ exists t, s = (whole ++ String c (fraction ++ t))%string.
Proof.
  revert whole fraction rest. induction s as [| a s IH]; intros whole fraction rest.
  - cbn. discriminate.
  - cbn [split_on]. destruct (Ascii.eqb_spec a c) as [-> | Hne].
    + intros [= <- Hs]. split; [intros [] |].
      destruct (split_on_head _ _ _ _ Hs) as [t Ht]. exists t.
      change ("" ++ String c (fraction ++ t))%string with (String c (fraction ++ t)%string).
      now f_equal.
    + destruct (split_on c s) as [| p ps] eqn:Hs; [discriminate |].
      intros [= <- ->]. destruct (IH p fraction rest eq_refl) as [Hno [t Ht]].
      split.
      * intros [Heq | Hin]; [congruence | exact (Hno Hin)].
      * exists t. rewrite append_cons. now f_equal.
Qed.

Section WithEnvironment.
Context {env : Environment}.

(** X8: [formatValue] truncates and never rounds: what it returns is "0.00",
    "< 0.0001", or a prefix of the text of [formatUnits]: that text itself,
    or its part up to the first point followed by at most four of the
    characters after the point. *)
Theorem formatValue_truncates (val decimals : Z) :
  let formatted := formatUnits val decimals in
  let shown := formatValue val decimals in
  shown = "0.00"%string
  \/ shown = "< 0.0001"%string
  \/ (String.prefix shown formatted = true
      /\ (shown = formatted
          \/ exists whole fraction,
               shown = (whole ++ "." ++ fraction)%string
               /\ no_char "." whole
               /\ (String.length fraction <= 4)%nat)).
Proof.
  cbv zeta. unfold formatValue.
  destruct (parseFloat_is_zero _); [now left |].
  destruct (parseFloat_below_0_0001 _); [right; now left |].
  right. right.
  destruct (split_on "." (formatUnits val decimals))
    as [| whole [| fraction rest]] eqn:Hsplit.
  - split; [apply prefix_refl | now left].
  - split; [apply prefix_refl | now left].
  - destruct (split_on_first _ _ _ _ _ Hsplit) as [Hno [t Ht]].
    split.
    + destruct (substring_prefix 4 fraction) as [u Hu].
      rewrite Ht. rewrite Hu at 2.
      change (String "." ((substring 0 4 fraction ++ u) ++ t))%string
        with ("." ++ ((substring 0 4 fraction ++ u) ++ t))%string.
      rewrite (append_assoc (substring 0 4 fraction) u t).
      rewrite <- (append_assoc "." (substring 0 4 fraction) (u ++ t)).
      rewrite <- (append_assoc whole ("." ++ substring 0 4 fraction) (u ++ t)).
      apply prefix_append.
    + right. exists whole, (substring 0 4 fraction).
      split; [reflexivity | split; [exact Hno | apply substring_length]].
Qed.

End WithEnvironment.
End FormatFacts.

(* ===================================================================== *)
(** ** Chain metadata and transfer transactions                           *)
(* ===================================================================== *)

Module ChainFacts.
Import Network Chain.

(** X9: the chain ids and the endpoint table agree: every key that
    [getNetworkMetadata] returns has a list of endpoints in [NETWORKS], and
    the list is not empty; two chain ids never share a key; and every key of
    [NETWORKS] is the key of some chain id. *)
Theorem getNetworkMetadata_configured :
  (forall chainId meta,
      getNetworkMetadata chainId = Some meta ->
      exists rpcUrls,
        own_property NETWORKS (key meta) = Some rpcUrls /\ rpcUrls <> [])
  /\ (forall a b ma mb,
        getNetworkMetadata a = Some ma -> getNetworkMetadata b = Some mb ->
        key ma = key mb -> a = b)
  /\ (forall networkKey rpcUrls,
        own_property NETWORKS networkKey = Some rpcUrls ->
        exists chainId meta,
          getNetworkMetadata chainId = Some meta /\ key meta = networkKey).
Proof.
  split; [| split].
  - intros chainId meta. unfold getNetworkMetadata.
    repeat match goal with
           | |- context [chainId =? ?n] => destruct (Z.eqb_spec chainId n)
           end;
      intros [= <-]; eexists; (split; [reflexivity | discriminate]).
  - intros a b ma mb. unfold getNetworkMetadata.
    repeat match goal with
           | |- context [a =? ?n] => destruct (Z.eqb_spec a n)
           end;
      repeat match goal with
             | |- context [b =? ?n] => destruct (Z.eqb_spec b n)
             end;
      intros [= <-] [= <-]; cbn [key]; intros Hkey;
      solve [congruence | discriminate Hkey].
  - intros networkKey rpcUrls. unfold NETWORKS. cbn [own_property].
    repeat match goal with
           | |- context [String.eqb ?k networkKey] =>
               destruct (String.eqb_spec k networkKey) as [<- | _]
           end;
      intros [= <-].
    + exists 1. eexists. split; reflexivity.
    + exists 42161. eexists. split; reflexivity.
    + exists 10. eexists. split; reflexivity.
    + exists 137. eexists. split; reflexivity.
    + exists 8453. eexists. split; reflexivity.
    + exists 324. eexists. split; reflexivity.
    + exists 59144. eexists. split; reflexivity.
    + exists 11155111. eexists. split; reflexivity.
Qed.

Section WithEnvironment.
Context {env : Environment} {units : Units}.

(** X10: a transfer of ETH is built without looking at the network: it goes
    to the recipient with the parsed amount and empty call data.  A transfer
    of a token is addressed to the contract that [TOKEN_ADDRESSES] holds for
    that token under the network key in lower case, carries no ETH, and
    names the recipient and the amount, parsed with six decimals, in its call
    data; on a network with no such contract it is refused, whatever the
    amount and the recipient are. *)
Theorem createTransferTransaction_correct (recipient amount : string)
    (token : Token) (network : string) :
  let result := createTransferTransaction recipient amount token network in
  (token = ETH ->
     (forall other, createTransferTransaction recipient amount ETH other = result)
     /\ forall tx, result = Ok tx ->
          to tx = recipient /\ data tx = "0x"%string
          /\ parseEther amount = Ok (value tx))
  /\ (token <> ETH ->
      (forall tx, result = Ok tx ->
         value tx = 0
         /\ to tx <> ""%string
         /\ (exists tokens,
               own_property TOKEN_ADDRESSES (toLowerCase network) = Some tokens
               /\ match token with
                  | USDT => usdt tokens
                  | _ => usdc tokens
                  end = Some (to tx))
         /\ exists amountUnits,
              parseUnits amount 6 = Ok amountUnits
              /\ encode_transfer recipient amountUnits = Ok (data tx))
      /\ (tokenAddress token network = None ->
          result = Throw (MkError (symbol token ++ " contract not configured for "
                                   ++ network)%string))).
Proof.
  cbv zeta. split.
  - intros ->. split; [reflexivity |].
    intros tx. cbn [createTransferTransaction].
    destruct (parseEther amount) as [valueWei | e]; [| discriminate].
    intros [= <-]. auto.
  - intros Htoken. split.
    + intros tx Hok.
      assert (Hbody :
        match tokenAddress token network with
        | Some contract =>
            if String.eqb contract "" then
              Throw (MkError (symbol token ++ " contract not configured for "
                              ++ network)%string)
            else
              match parseUnits amount 6 with
              | Throw e => Throw e
              | Ok amountUnits =>
                  match encode_transfer recipient amountUnits with
                  | Throw e => Throw e
                  | Ok calldata => Ok (MkTransaction contract 0 calldata)
                  end
              end
        | None =>
            Throw (MkError (symbol token ++ " contract not configured for "
                            ++ network)%string)
        end = Ok tx).
      { destruct token; [contradiction | exact Hok | exact Hok]. }
      clear Hok. unfold tokenAddress in Hbody.
      unfold get_property in Hbody.
      destruct (own_property TOKEN_ADDRESSES (toLowerCase network))
        as [tokens |] eqn:Hown.
      * destruct (match token with USDT => usdt tokens | _ => usdc tokens end)
          as [contract |] eqn:Haddr; [| discriminate].
        destruct (String.eqb_spec contract "") as [| Hne]; [discriminate |].
        destruct (parseUnits amount 6) as [amountUnits | e]; [| discriminate].
        destruct (encode_transfer recipient amountUnits) as [calldata | e] eqn:Hdata;
          [| discriminate].
        injection Hbody as <-. cbn [to value data].
        split; [reflexivity | split; [exact Hne | split]].
        -- exists tokens. split; [reflexivity | exact Haddr].
        -- exists amountUnits. split; [reflexivity | exact Hdata].
      * destruct (existsb _ Object_prototype_keys); discriminate.
    + intros Hnone. destruct token; [contradiction | |];
        cbn [createTransferTransaction]; rewrite Hnone; reflexivity.
Qed.

End WithEnvironment.
End ChainFacts.

(* ===================================================================== *)
(** ** The system logger and the log of the application                   *)
(* ===================================================================== *)

Module SystemLoggerFacts.
Import SystemLogger.

Lemma slice_last_snoc {A : Type} (n : nat) (l : list A) (x : A) :
  slice_last n (slice_last n l ++ [x]) = slice_last n (l ++ [x]).
Proof.
  unfold slice_last. rewrite !length_app, length_drop. cbn [length].
  destruct (decide (length l <= n)%nat) as [Hle | Hgt].
  - replace (length l - n)%nat with 0%nat by lia. rewrite drop_0.
    f_equal. lia.
  - destruct n as [| n].
    + rewrite !drop_ge; [reflexivity | |];
        rewrite !length_app, ?length_drop; cbn [length]; lia.
    + rewrite (drop_app_le l [x] (length l + 1 - S n)) by lia.
      rewrite (drop_app_le (drop (length l - S n) l))
        by (rewrite length_drop; lia).
      rewrite drop_drop. do 2 f_equal. lia.
Qed.

Lemma fold_App_listener (shown entries : list Entry) :
  fold_left App_listener entries (slice_last 100 shown)
    = slice_last 100 (shown ++ entries).
Proof.
  revert shown. induction entries as [| e entries IH]; intros shown.
  - now rewrite app_nil_r.
  - cbn [fold_left]. unfold App_listener at 2.
    rewrite slice_last_snoc, IH, <- app_assoc. reflexivity.
Qed.

(** X11: the log that the application shows starts empty and passes every
    entry through its listener: it always holds the last hundred entries
    logged, in the order in which they were logged, and all of them while
    there are no more than a hundred. *)
Theorem App_log_keeps_last_100 (entries : list Entry) :
  let shown := fold_left App_listener entries [] in
  shown = drop (length entries - 100) entries
  /\ (length shown <= 100)%nat
  /\ ((length entries <= 100)%nat -> shown = entries).
Proof.
  cbv zeta. pose proof (fold_App_listener [] entries) as Hfold.
  change (slice_last 100 []) with (@nil Entry) in Hfold.
  rewrite app_nil_l in Hfold. unfold slice_last in Hfold. rewrite Hfold.
  split; [reflexivity | split].
  - rewrite length_drop. lia.
  - intros Hle. replace (length entries - 100)%nat with 0%nat by lia.
    apply drop_0.
Qed.

Lemma filter_calls (listener : Listener) (entry : Entry) (l : list Listener) :
  filter (fun d : Listener * Entry => fst d <> listener)
         (map (fun x => (x, entry)) l)
    = map (fun x => (x, entry)) (filter (fun x => x <> listener) l).
Proof.
  induction l as [| x l IH]; [reflexivity |].
  cbn [map]. destruct (decide (x <> listener)) as [Hx | Hx].
  - rewrite (filter_cons_True (fun d : Listener * Entry => fst d <> listener))
      by exact Hx.
    rewrite (filter_cons_True (fun x => x <> listener)) by exact Hx.
    cbn [map]. now rewrite IH.
  - rewrite (filter_cons_False (fun d : Listener * Entry => fst d <> listener))
      by exact Hx.
    rewrite (filter_cons_False (fun x => x <> listener)) by exact Hx.
    exact IH.
Qed.

(** X12: the function returned by [subscribe] removes every registration of its
    listener, also those made by earlier calls of [subscribe] with the same
    function: afterwards an entry logged reaches the other listeners as
    before, once for each of their registrations and in the same order, and
    does not reach the listener.  For a listener that was not registered
    before, subscribing and unsubscribing leaves the logger as it was. *)
Theorem unsubscribe_correct (listener : Listener) (l : t) (uuid : string)
    (now : Z) (message : string) (type source : option string) :
  let calls_of l := drop (length (delivered l)) (delivered (log uuid now message type source l)) in
  (listener ∉ listeners (unsubscribe listener l))
  /\ calls_of (unsubscribe listener l)
     = filter (fun d => fst d <> listener) (calls_of l)
  /\ (forall d, d ∈ calls_of (unsubscribe listener l) -> fst d <> listener)
  /\ calls_of (unsubscribe listener (subscribe listener l))
     = calls_of (unsubscribe listener l)
  /\ (listener ∉ listeners l -> unsubscribe listener (subscribe listener l) = l).
Proof.
  cbv beta zeta.
  assert (Hcalls : forall l0,
            drop (length (delivered l0)) (delivered (log uuid now message type source l0))
            = map (fun x => (x, MkEntry uuid now message (default "info"%string type)
                                  (default "System"%string source)))
                  (listeners l0)).
  { intros l0. unfold log. cbn [delivered]. now rewrite drop_app_length. }
  rewrite !Hcalls. cbn [unsubscribe subscribe listeners delivered].
  split; [| split; [| split; [| split]]].
  - intros Hin. apply list_elem_of_filter in Hin as [Hne _]. now apply Hne.
  - symmetry. apply filter_calls.
  - intros d Hd. change (map ?f ?x) with (f <$> x) in Hd.
    apply list_elem_of_fmap in Hd as (x & -> & Hx).
    apply list_elem_of_filter in Hx as [Hne _]. exact Hne.
  - rewrite filter_app, (filter_cons_False _ listener) by auto.
    rewrite filter_nil, app_nil_r. reflexivity.
  - intros Hfresh. destruct l as [ls ds]. unfold unsubscribe, subscribe.
    cbn [listeners delivered] in *. f_equal.
    rewrite filter_app, (filter_cons_False _ listener) by auto.
    rewrite filter_nil, app_nil_r.
    induction ls as [| x ls IH]; [reflexivity |].
    rewrite filter_cons_True by (intros ->; apply Hfresh; left).
    f_equal. apply IH. intros Hin. apply Hfresh. now right.
Qed.

End SystemLoggerFacts.

(* ===================================================================== *)
(** ** Importing a private key                                            *)
(* ===================================================================== *)

Module WalletImportFacts.
Import Signer WalletImport.

Lemma prefix_0x (s : string) : String.prefix "0x" (String.append "0x" s) = true.
Proof. apply FormatFacts.prefix_append. Qed.

Section WithEthers.
Context {ethers : Ethers}.

(** X13: [createWalletFromKey] reads a key with and without the prefix "0x"
    alike.  The key it reports for a valid input begins with "0x", is
    accepted by the wallet constructor, gives the reported address, and is
    reported unchanged when it is checked again; for an invalid input the
    address and the key reported are empty. *)
Theorem createWalletFromKey_correct (privateKey : string) :
  let check := createWalletFromKey privateKey in
  (String.prefix "0x" privateKey = false ->
     createWalletFromKey (String.append "0x" privateKey) = check)
  /\ (valid check = true ->
      String.prefix "0x" (normalizedKey check) = true
      /\ createWalletFromKey (normalizedKey check) = check
      /\ exists wallet, Wallet_new (normalizedKey check) = Ok wallet
                        /\ address check = Wallet_address wallet)
  /\ (valid check = false ->
      address check = ""%string /\ normalizedKey check = ""%string).
Proof.
  cbv zeta. split; [| split].
  - intros Hprefix. unfold createWalletFromKey.
    rewrite prefix_0x, Hprefix. reflexivity.
  - unfold createWalletFromKey.
    destruct (String.prefix "0x" privateKey) eqn:Hprefix.
    + destruct (Wallet_new privateKey) as [wallet | e] eqn:Hnew;
        cbn [valid normalizedKey address]; [intros _ | discriminate].
      rewrite Hprefix, Hnew. eauto.
    + destruct (Wallet_new (String.append "0x" privateKey)) as [wallet | e] eqn:Hnew;
        cbn [valid normalizedKey address]; [intros _ | discriminate].
      rewrite prefix_0x, Hnew. eauto.
  - unfold createWalletFromKey.
    destruct (Wallet_new _) as [wallet | e]; cbn [valid normalizedKey address];
      [discriminate | auto].
Qed.

Variable trim : string -> string.
Variable wallets : list WalletData.t.
Variable password : string.
Variable encryptData : string -> string -> string.
Variable uuid : string.
Variable now : Z.

(** X14: a wallet that [processImport] returns bears the trimmed name, which is
    not empty and is the name of no wallet of the vault; its address is the
    one of the trimmed key, which the wallet constructor accepts with the
    prefix "0x" put before it when missing; what it stores is the encryption
    of the trimmed key under the password of the vault.  Appending it to a
    vault whose wallets have distinct names leaves the names distinct. *)
Theorem processImport_correct (name key : string)
    (metadata : option (gmap string string)) (w : WalletData.t) :
  processImport trim wallets password encryptData uuid now name key metadata = Ok w ->
  WalletData.name w = trim name
  /\ WalletData.name w <> ""%string
  /\ trim key <> ""%string
  /\ (forall x, x ∈ wallets -> WalletData.name x <> WalletData.name w)
  /\ valid (createWalletFromKey (trim key)) = true
  /\ WalletData.address w = address (createWalletFromKey (trim key))
  /\ WalletData.encryptedPrivateKey w = encryptData (trim key) password
  /\ (NoDup (map WalletData.name wallets) ->
      NoDup (map WalletData.name (wallets ++ [w]))).
Proof.
  unfold processImport.
  destruct (String.eqb_spec (trim name) "") as [| Hname]; [discriminate |].
  destruct (String.eqb_spec (trim key) "") as [| Hkey]; [discriminate |].
  cbn [orb].
  destruct (existsb _ wallets) eqn:Hexists; [discriminate |].
  destruct (valid (createWalletFromKey (trim key))) eqn:Hvalid; [| discriminate].
  cbn [negb]. intros [= <-]. cbn [WalletData.name WalletData.address
    WalletData.encryptedPrivateKey].
  assert (Hfresh : forall x, x ∈ wallets -> WalletData.name x <> trim name).
  { intros x Hx Heq.
    assert (Htrue : existsb (fun w => String.eqb (WalletData.name w) (trim name))
                      wallets = true).
    { apply existsb_exists. exists x. split.
      - now apply list_elem_of_In.
      - now apply String.eqb_eq. }
    congruence. }
  repeat split; try assumption; try reflexivity.
  intros Hnodup. rewrite map_app. cbn [map WalletData.name].
  apply NoDup_app. split; [exact Hnodup | split].
  - intros n Hn Hin. apply list_elem_of_singleton in Hin as ->.
    change (map WalletData.name wallets) with (WalletData.name <$> wallets) in Hn.
    apply list_elem_of_fmap in Hn as (x & Heq & Hx).
    exact (Hfresh x Hx (eq_sym Heq)).
  - apply NoDup_singleton.
Qed.

End WithEthers.

(** The form is filled in with a name between spaces and a key without
    prefix. *)
Lemma processImport_correct_witness :
  let key := "4c0883a69102937d6231471b5dbb6204fe5129617082792ae468d01a3f362318"%string in
  let imported :=
    WalletData.Make "uuid-2" "B" "0x5dbb6204fe5129617082792ae468d01a3f362318"
      (WalletImportDemo.encrypt key "secret1") (Some ∅) 1700000000002 in
  processImport (ethers := SignerDemo.ethers) WalletImportDemo.trim SignerDemo.vault
    "secret1" WalletImportDemo.encrypt "uuid-2" 1700000000002 "  B " key None
  = Ok imported
  /\ NoDup (map WalletData.name (SignerDemo.vault ++ [imported])).
Proof.
  cbv zeta.
  assert (Hrun :
    processImport (ethers := SignerDemo.ethers) WalletImportDemo.trim SignerDemo.vault
      "secret1" WalletImportDemo.encrypt "uuid-2" 1700000000002 "  B "
      "4c0883a69102937d6231471b5dbb6204fe5129617082792ae468d01a3f362318" None
    = Ok (WalletData.Make "uuid-2" "B" "0x5dbb6204fe5129617082792ae468d01a3f362318"
            (WalletImportDemo.encrypt
               "4c0883a69102937d6231471b5dbb6204fe5129617082792ae468d01a3f362318"
               "secret1") (Some ∅) 1700000000002)) by reflexivity.
  split; [exact Hrun |].
  destruct (processImport_correct (ethers := SignerDemo.ethers) _ _ _ _ _ _ _ _ _ _ Hrun)
    as (_ & _ & _ & _ & _ & _ & _ & Hnodup).
  apply Hnodup. repeat constructor. intros Hin. inversion Hin.
Defined.

End WalletImportFacts.

(* ===================================================================== *)
(** ** More on the request dispatcher                                     *)
(* ===================================================================== *)

Module DispatcherFacts.
Import Signer SignerFacts.

(** What the [catch] of the dispatcher makes of an outcome. *)
Definition answered (r : Result ServiceResponse * Machine)
    : Result ServiceResponse * Machine :=
  match r with
  | (Ok response, m) => (Ok response, m)
  | (Throw e, m) =>
      (Ok (errorResponse e),
       MkMachine (logs m ++ [("Error: " ++ message e)%string])
         (calls m ++ [logger_log ("Op failed: " ++ message e)%string "error" "Signer"])
         (lastSignature m))
  end.

Ltac run_monad :=
  unfold mbind, M_bind, bind, try_catch, emit, addLog, setLogs,
    setLastSignature, mret, M_ret, ret, throw, lift;
  cbn [logs calls lastSignature].

Ltac failure_case :=
  unfold answered; cbn [logs calls lastSignature app];
  do 3 eexists; split; [reflexivity |];
  split; [rewrite <- ?app_assoc; reflexivity |];
  split; [right; eexists; repeat split; reflexivity |].

Ltac success_case Htype :=
  unfold answered; cbn [logs calls lastSignature app];
  do 3 eexists; split; [reflexivity |];
  split; [rewrite <- ?app_assoc; reflexivity |];
  split; [left; repeat (split; [reflexivity |]);
          split; [rewrite Htype; cbn; tauto | eauto] |].

Ltac known_type Htype :=
  split; [intros e' Habs; discriminate Habs |];
  split; [intros Hnot; exfalso; apply Hnot; rewrite Htype; cbn; tauto |].

Section WithServices.
Context {ethers : Ethers}.
Variable wallets : list WalletData.t.
Variable password : string.
Variable decryptData : string -> string -> Result string.
Variable JSON_parse : string -> option ApiRequest.
Variable vault_management : ApiRequest -> M ServiceResponse.
Variable chain_query : ApiRequest -> string -> M ServiceResponse.

Definition received (request : ApiRequest) (m : Machine) : Machine :=
  MkMachine ["Received API request...";
             ("Payload parsed. Type: " ++ type request)%string]
    (calls m) None.

Lemma handleProcessRequest_signature (requestJson : string) (request : ApiRequest)
    (m : Machine) :
  JSON_parse requestJson = Some request ->
  String.prefix "vault_" (type request) = false ->
  existsb (String.eqb (type request)) read_only = false ->
  handleProcessRequest wallets password decryptData JSON_parse
    vault_management chain_query requestJson m
  = answered (signature_method wallets password decryptData request (received request m)).
Proof.
  intros Hparse Hvault Hread. unfold handleProcessRequest. run_monad.
  rewrite Hparse. run_monad. rewrite Hvault, Hread.
  unfold received, answered. cbn [app].
  destruct (signature_method _ _ _ _ _) as [[response | e] m1]; reflexivity.
Qed.

(** X15: the dispatcher never throws: every request text is answered with a
    response.  A text that is not JSON is answered with the error response
    "Invalid JSON format."; the debug log of the previous request is gone
    and holds two new lines (recorded here without their time of day), no
    signature is kept, and one line goes to the system log. *)
Theorem handleProcessRequest_answers (requestJson : string) (m : Machine) :
  (exists response m',
      handleProcessRequest wallets password decryptData JSON_parse
        vault_management chain_query requestJson m = (Ok response, m'))
  /\ (JSON_parse requestJson = None ->
      handleProcessRequest wallets password decryptData JSON_parse
        vault_management chain_query requestJson m
      = (Ok (errorResponse (MkError "Invalid JSON format.")),
         MkMachine ["Received API request..."; "Error: Invalid JSON format."]
           (calls m ++ [logger_log "Op failed: Invalid JSON format." "error" "Signer"])
           None)).
Proof.
  split.
  - unfold handleProcessRequest. run_monad.
    repeat match goal with
           | |- context [match ?body with _ => _ end] => destruct body
           end; eauto.
  - intros Hparse. unfold handleProcessRequest. run_monad.
    rewrite Hparse. run_monad. reflexivity.
Qed.

Lemma find_wallet_name (label : string) (x : WalletData.t) :
  find_wallet wallets label = Some x -> x ∈ wallets /\ WalletData.name x = label.
Proof.
  unfold find_wallet. intros Hfind. apply List.find_some in Hfind as [Hin Hname].
  split; [now apply list_elem_of_In | now apply String.eqb_eq].
Qed.

(** All that a request of the third class can lead to, once its label is
    resolved. *)
Lemma signature_request_cases (requestJson : string) (request : ApiRequest)
    (m : Machine) (label : string) (x : WalletData.t) :
  JSON_parse requestJson = Some request ->
  String.prefix "vault_" (type request) = false ->
  existsb (String.eqb (type request)) read_only = false ->
  walletLabel request = Some label ->
  label <> ""%string ->
  find_wallet wallets label = Some x ->
  exists response m' entry,
    handleProcessRequest wallets password decryptData JSON_parse
      vault_management chain_query requestJson m = (Ok response, m')
    /\ calls m' = calls m
         ++ [decryptData_called (WalletData.encryptedPrivateKey x) password; entry]
    /\ ((status response = "success"%string
         /\ operation response = Some (type request)
         /\ response_walletLabel response = Some label
         /\ entry = logger_log ("Signed " ++ type request ++ " with " ++ label)%string
                      "success" "Signer"
         /\ In (type request) signing_types
         /\ exists privateKey,
              decryptData (WalletData.encryptedPrivateKey x) password = Ok privateKey)
        \/ (exists e,
              response = errorResponse e
              /\ entry = logger_log ("Op failed: " ++ message e)%string "error" "Signer"
              /\ lastSignature m' = None))
    /\ (forall e, decryptData (WalletData.encryptedPrivateKey x) password = Throw e ->
          response = errorResponse e)
    /\ (~ In (type request) signing_types ->
        forall privateKey,
          decryptData (WalletData.encryptedPrivateKey x) password = Ok privateKey ->
          response = errorResponse (MkError "Unsupported operation type"))
    /\ (forall sig chainId,
          lastSignature m' = Some (sig, chainId) ->
          type request = "eth_signTransaction"%string
          /\ status response = "success"%string
          /\ signedTx response = Some sig
          /\ truthy chainId = true
          /\ get (payload request) "chainId" = Ok chainId).
Proof.
  intros Hparse Hvault Hread Hlabel Hne Hfind.
  rewrite (handleProcessRequest_signature _ _ _ Hparse Hvault Hread).
  destruct (find_wallet_name _ _ Hfind) as [_ Hname]. subst label.
  unfold signature_method. rewrite Hlabel.
  destruct (String.eqb_spec (WalletData.name x) "") as [| _]; [contradiction |].
  rewrite Hfind. unfold received. run_monad.
  destruct (decryptData (WalletData.encryptedPrivateKey x) password)
    as [privateKey | e] eqn:Hdecrypt.
  2: { failure_case.
       split; [intros e' [= <-]; reflexivity |].
       split; [intros _ key Habs; discriminate Habs |].
       intros sig chainId Habs; discriminate Habs. }
  destruct (String.eqb_spec (type request) "personal_sign") as [Htype | Hn1].
  { run_monad.
    destruct (signMessage privateKey (payload request)) as [sig | e];
      [success_case Htype | failure_case]; known_type Htype;
      intros s0 c0 Habs; discriminate Habs. }
  destruct (String.eqb_spec (type request) "eth_signTransaction") as [Htype | Hn2].
  { run_monad.
    destruct (signTransaction privateKey (payload request)) as [sig | e];
      [| failure_case; known_type Htype; intros s0 c0 Habs; discriminate Habs].
    destruct (keccak256 sig) as [hash | e];
      [| failure_case; known_type Htype; intros s0 c0 Habs; discriminate Habs].
    destruct (get (payload request) "chainId") as [chainId | e] eqn:Hchain;
      [| failure_case; known_type Htype; intros s0 c0 Habs; discriminate Habs].
    destruct (truthy chainId) eqn:Htruthy; run_monad;
      success_case Htype; known_type Htype; intros s0 c0 Hkept.
    - injection Hkept as <- <-. auto.
    - discriminate Hkept. }
  destruct (String.eqb_spec (type request) "eth_signTypedData") as [Htype | Hn3].
  { run_monad.
    destruct (signTypedData privateKey (payload request)) as [sig | e];
      [success_case Htype | failure_case]; known_type Htype;
      intros s0 c0 Habs; discriminate Habs. }
  run_monad. failure_case.
  split; [intros e' Habs; discriminate Habs |].
  split; [intros _ key _; reflexivity |].
  intros s0 c0 Habs; discriminate Habs.
Qed.

(** X16: a request that is neither a vault method nor a chain query, and whose
    label names a wallet of the vault, decrypts exactly one key: the blob of
    the first wallet with that name, under the password of the vault.  It
    writes exactly one line to the system log, a success line when the
    response is a success and a failure line with the message of the error
    response otherwise.  When the decryption fails, its error is the
    response; a type that is not one of the three signing types is refused
    as unsupported, yet only after the key was decrypted. *)
Theorem signature_request_decrypts_once (requestJson : string)
    (request : ApiRequest) (m : Machine) (label : string) (x : WalletData.t) :
  JSON_parse requestJson = Some request ->
  String.prefix "vault_" (type request) = false ->
  existsb (String.eqb (type request)) read_only = false ->
  walletLabel request = Some label ->
  label <> ""%string ->
  find_wallet wallets label = Some x ->
  exists response m' entry,
    handleProcessRequest wallets password decryptData JSON_parse
      vault_management chain_query requestJson m = (Ok response, m')
    /\ calls m' = calls m
         ++ [decryptData_called (WalletData.encryptedPrivateKey x) password; entry]
    /\ ((status response = "success"%string
         /\ response_walletLabel response = Some label
         /\ entry = logger_log ("Signed " ++ type request ++ " with " ++ label)%string
                      "success" "Signer"
         /\ In (type request) signing_types)
        \/ (exists e,
              response = errorResponse e
              /\ entry = logger_log ("Op failed: " ++ message e)%string "error" "Signer"))
    /\ (forall e, decryptData (WalletData.encryptedPrivateKey x) password = Throw e ->
          response = errorResponse e)
    /\ (~ In (type request) signing_types ->
        forall privateKey,
          decryptData (WalletData.encryptedPrivateKey x) password = Ok privateKey ->
          response = errorResponse (MkError "Unsupported operation type")).
Proof.
  intros Hparse Hvault Hread Hlabel Hne Hfind.
  destruct (signature_request_cases requestJson request m label x
              Hparse Hvault Hread Hlabel Hne Hfind)
    as (response & m' & entry & Hrun & Hcalls & Hcases & Hfail & Hunsupported & _).
  exists response, m', entry.
  split; [exact Hrun | split; [exact Hcalls | split; [| split; assumption]]].
  destruct Hcases as [(Hs & _ & Hl & He & Hin & _) | (e & Hr & He & _)].
  - left. auto.
  - right. eauto.
Qed.

(** X17: after a request that is neither a vault method nor a chain query,
    and whose label names a wallet of the vault, a signature is kept for
    broadcasting only when
    the request was an [eth_signTransaction] that succeeded on a payload
    with a truthy [chainId]; what is kept is the signed transaction of the
    response, with that [chainId].  Every failure leaves no signature. *)
Theorem lastSignature_kept (requestJson : string)
    (request : ApiRequest) (m : Machine) (label : string) (x : WalletData.t) :
  JSON_parse requestJson = Some request ->
  String.prefix "vault_" (type request) = false ->
  existsb (String.eqb (type request)) read_only = false ->
  walletLabel request = Some label ->
  label <> ""%string ->
  find_wallet wallets label = Some x ->
  exists response m',
    handleProcessRequest wallets password decryptData JSON_parse
      vault_management chain_query requestJson m = (Ok response, m')
    /\ (status response = "error"%string -> lastSignature m' = None)
    /\ (forall sig chainId,
          lastSignature m' = Some (sig, chainId) ->
          type request = "eth_signTransaction"%string
          /\ status response = "success"%string
          /\ signedTx response = Some sig
          /\ truthy chainId = true
          /\ get (payload request) "chainId" = Ok chainId).
Proof.
  intros Hparse Hvault Hread Hlabel Hne Hfind.
  destruct (signature_request_cases requestJson request m label x
              Hparse Hvault Hread Hlabel Hne Hfind)
    as (response & m' & entry & Hrun & _ & Hcases & _ & _ & Hkept).
  exists response, m'. split; [exact Hrun | split; [| exact Hkept]].
  intros Herror.
  destruct Hcases as [(Hs & _) | (e & _ & _ & Hnone)]; [| exact Hnone].
  rewrite Hs in Herror. discriminate.
Qed.

End WithServices.
End DispatcherFacts.

(* ===================================================================== *)
(** ** Backups                                                            *)
(* ===================================================================== *)

Module VaultBackupFacts.
Import Vault VaultFacts VaultSession VaultBackup.

Section WithPlatform.
Context {platform : Platform} {export : ExportPlatform}.

(** X18: importing the backup that [exportVault] made of a vault [source] into
    a vault [target] appends the wallets of [source] whose id [target] does
    not hold, in their order, and reports their number; the settings of
    [target] stay as they are, although the backup carries those of
    [source].  Into a vault without wallets the import restores the wallets
    of [source] exactly; into [source] itself it adds nothing. *)
Theorem import_of_export (source target : World) (password : string) :
  let backup := exportVault source in
  let result := importVaultData backup password target in
  let added :=
    filter (fun x => WalletData.id x ∉
              (list_to_set (map WalletData.id (wallets (hook target))) : gset string))
           (wallets (hook source)) in
  fst result = ImportSuccess (length added)
  /\ wallets (hook (snd result)) = wallets (hook target) ++ added
  /\ settings (hook (snd result)) = settings (hook target)
  /\ (wallets (hook target) = [] ->
      wallets (hook (snd result)) = wallets (hook source))
  /\ fst (importVaultData backup password source) = ImportSuccess 0
  /\ wallets (hook (snd (importVaultData backup password source)))
     = wallets (hook source).
Proof.
  cbv zeta. unfold exportVault, importVaultData.
  rewrite JSON_parse_stringify_export.
  cbn [backup_wallets fst snd hook wallets settings setWallets set_hook persist
       localStorage_setItem].
  split; [reflexivity | split; [reflexivity | split; [reflexivity | split]]].
  - intros ->. cbn [app map]. apply filter_all. intros x _. set_solver.
  - assert (Hnone : filter
              (fun x => WalletData.id x ∉
                 (list_to_set (map WalletData.id (wallets (hook source))) : gset string))
              (wallets (hook source)) = []).
    { apply filter_none. intros x Hx Hnot. apply Hnot.
      apply list_to_set_ids. exists x. split; [exact Hx | reflexivity]. }
    rewrite Hnone. cbn [length]. rewrite app_nil_r. split; reflexivity.
Qed.

End WithPlatform.
End VaultBackupFacts.

(** ** More requests on concrete data *)
Module DispatcherExamples.
Import Signer SignerFacts SignerDemo DispatcherFacts.

(** A request of a type that the dispatcher does not know, for the wallet
    of the vault: the key is decrypted, and then the type is refused. *)
Lemma signature_request_decrypts_once_witness :
  exists m' entry,
    dispatch (sign_request "eth_sign" "A" JNull)
      = (Ok (errorResponse (MkError "Unsupported operation type")), m')
    /\ calls m'
       = calls start ++ [decryptData_called "blob-A" "secret1"; entry].
Proof.
  destruct (signature_request_decrypts_once vault "secret1" decrypt
              (fun _ => Some (sign_request "eth_sign" "A" JNull))
              no_vault_method no_chain_query "(request text)"
              (sign_request "eth_sign" "A" JNull) start "A"
              (WalletData.Make "id-1" "A" "0x1111" "blob-A" None 1700000000000))
    as (response & m' & entry & Hrun & Hcalls & _ & _ & Hunsupported);
    [reflexivity | reflexivity | reflexivity | reflexivity | discriminate
    | reflexivity |].
  exists m', entry. split; [| exact Hcalls].
  unfold dispatch. rewrite Hrun. do 2 f_equal.
  apply (Hunsupported
           ltac:(intros [H | [H | [H | []]]]; discriminate H)
           private_key eq_refl).
Defined.

(** A transaction signed for chain 1 is kept for broadcasting. *)
Lemma lastSignature_kept_witness :
  exists response m',
    dispatch (sign_request "eth_signTransaction" "A" (JObject [("chainId", JNumber 1)]))
      = (Ok response, m')
    /\ (forall sig chainId,
          lastSignature m' = Some (sig, chainId) ->
          signedTx response = Some sig /\ chainId = Some (JNumber 1)).
Proof.
  destruct (lastSignature_kept vault "secret1" decrypt
              (fun _ => Some (sign_request "eth_signTransaction" "A"
                                (JObject [("chainId", JNumber 1)])))
              no_vault_method no_chain_query "(request text)"
              (sign_request "eth_signTransaction" "A" (JObject [("chainId", JNumber 1)]))
              start "A"
              (WalletData.Make "id-1" "A" "0x1111" "blob-A" None 1700000000000))
    as (response & m' & Hrun & _ & Hkept);
    [reflexivity | reflexivity | reflexivity | reflexivity | discriminate
    | reflexivity |].
  exists response, m'. split; [exact Hrun |].
  intros sig chainId Hlast.
  destruct (Hkept sig chainId Hlast) as (_ & _ & Hsigned & _ & Hchain).
  split; [exact Hsigned |]. cbn in Hchain. congruence.
Defined.

End DispatcherExamples.

(* ===================================================================== *)
(** ** Reloading the page, and the ids of the wallets                     *)
(* ===================================================================== *)

Module VaultInvariants.
Import Vault VaultFacts VaultSession VaultPage.

Definition ids (ws : list WalletData.t) : list string := map WalletData.id ws.

Lemma ids_filter (P : WalletData.t -> Prop) `{!forall x, Decision (P x)}
    (ws : list WalletData.t) :
  NoDup (ids ws) -> NoDup (ids (filter P ws)).
Proof.
  unfold ids. induction ws as [| x ws IH]; [intros _; constructor |].
  cbn [map]. intros Hnodup. apply NoDup_cons in Hnodup as [Hx Hws].
  destruct (decide (P x)) as [HP | HP].
  - rewrite filter_cons_True by exact HP. cbn [map]. apply NoDup_cons.
    split; [| auto]. intros Hin. apply Hx.
    change (map WalletData.id ?l) with (WalletData.id <$> l) in *.
    apply list_elem_of_fmap in Hin as (y & Hy & Hin).
    apply list_elem_of_filter in Hin as [_ Hin].
    apply list_elem_of_fmap. eauto.
  - rewrite filter_cons_False by exact HP. auto.
Qed.

Section WithPlatform.
Context {platform : Platform}.

(** X19: after any call that persists, a reload of the page finds the vault:
    it comes up locked, with no wallet and no password in memory; the
    passwords that hash like the one under which the call persisted open
    it, and bring back the wallets and the settings that the call left. *)
Theorem reload_after_persist (op : Operation) (w : World) (password : string) :
  persists op w = true ->
  let saved := run_operation op w in
  let reloaded := reload saved in
  hasVault (hook reloaded) = true
  /\ isLocked (hook reloaded) = true
  /\ loading (hook reloaded) = false
  /\ wallets (hook reloaded) = []
  /\ masterPassword (hook reloaded) = ""%string
  /\ (fst (unlockVault password reloaded) = true
      <-> hashPassword password = hashPassword (password_used op w))
  /\ (hashPassword password = hashPassword (password_used op w) ->
      let w' := snd (unlockVault password reloaded) in
      wallets (hook w') = wallets (hook saved)
      /\ settings (hook w') = settings (hook saved)
      /\ isLocked (hook w') = false
      /\ console w' = []).
Proof.
  intros Hp. cbv zeta.
  pose proof (run_operation_persists op w Hp) as Hby. cbv zeta in Hby.
  set (saved := run_operation op w) in *.
  pose proof (persisted_by_store _ _ _ _ Hby) as Hst.
  unfold persisted_by in Hby. cbv zeta in Hby.
  assert (Hreload :
    reload saved
    = setLoading false
        (setHasVault true (MkWorld initial_hook (localStorage saved) []))).
  { unfold reload, initialize. cbn [localStorage]. rewrite Hby.
    assert (Htruthy : forall st, truthy (JSON_stringify_store st) = true)
      by (intros st; apply truthy_true, JSON_stringify_store_nonempty).
    rewrite Htruthy. reflexivity. }
  assert (Hst' : persisted_store (reload saved) = persisted_store saved)
    by (rewrite Hreload; reflexivity).
  rewrite <- Hst' in Hst.
  split; [rewrite Hreload; reflexivity |].
  split; [rewrite Hreload; reflexivity |].
  split; [rewrite Hreload; reflexivity |].
  split; [rewrite Hreload; reflexivity |].
  split; [rewrite Hreload; reflexivity |].
  split.
  - rewrite (unlockVault_result _ _ _ Hst). cbn [VaultStore.masterHash].
    rewrite String.eqb_eq. split; intros H; now rewrite H.
  - intros Hhash.
    rewrite (unlockVault_hash_matches password _ _ Hst)
      by (cbn [VaultStore.masterHash]; now rewrite Hhash).
    unfold verifyIntegrity.
    cbn [VaultStore.checksum VaultStore.wallets VaultStore.settings].
    rewrite String.eqb_refl, andb_false_r. rewrite Hreload. cbn.
    rewrite spread_of_settings. auto.
Qed.

(** X20: wallet ids that are distinct stay distinct when a wallet is removed,
    when metadata are updated (the list of ids stays the same), when a
    wallet with a new id is added, and when a backup whose own ids are
    distinct is imported. *)
Theorem wallet_ids_stay_distinct (w : World) :
  NoDup (ids (wallets (hook w))) ->
  (forall id, NoDup (ids (wallets (hook (removeWallet id w)))))
  /\ (forall id metadata,
        ids (wallets (hook (updateWalletMetadata id metadata w)))
          = ids (wallets (hook w)))
  /\ (forall x, WalletData.id x ∉ ids (wallets (hook w)) ->
        NoDup (ids (wallets (hook (addWallet x w)))))
  /\ (forall jsonString password backup ws,
        JSON_parse_backup jsonString = Ok backup ->
        backup_wallets backup = WalletsArray ws ->
        NoDup (ids ws) ->
        NoDup (ids (wallets (hook (snd (importVaultData jsonString password w)))))).
Proof.
  intros Hnodup. split; [| split; [| split]].
  - intros id.
    change (wallets (hook (removeWallet id w)))
      with (filter (fun x => WalletData.id x <> id) (wallets (hook w))).
    now apply ids_filter.
  - intros id metadata.
    change (wallets (hook (updateWalletMetadata id metadata w)))
      with (map (fun x => if String.eqb (WalletData.id x) id
                          then with_metadata metadata x else x)
                (wallets (hook w))).
    unfold ids. rewrite map_map. apply map_ext. intros x.
    destruct (String.eqb (WalletData.id x) id); reflexivity.
  - intros x Hfresh.
    change (wallets (hook (addWallet x w))) with (wallets (hook w) ++ [x]).
    unfold ids in *. rewrite map_app. cbn [map]. apply NoDup_app.
    split; [exact Hnodup | split; [| apply NoDup_singleton]].
    intros i Hi Hin. apply list_elem_of_singleton in Hin as ->. exact (Hfresh Hi).
  - intros jsonString password backup ws Hparse Hws Hbackup.
    unfold importVaultData. rewrite Hparse, Hws.
    cbn [snd hook wallets setWallets set_hook persist localStorage_setItem].
    unfold ids in *. rewrite map_app. apply NoDup_app.
    split; [exact Hnodup | split; [| now apply ids_filter]].
    intros i Hi Hin.
    change (map WalletData.id ?l) with (WalletData.id <$> l) in Hin.
    apply list_elem_of_fmap in Hin as (y & -> & Hin).
    apply list_elem_of_filter in Hin as [Hnot _].
    apply Hnot. apply elem_of_list_to_set. exact Hi.
Qed.

End WithPlatform.
End VaultInvariants.

Module VaultInvariantsExamples.
Import Vault VaultFacts VaultSession VaultPage VaultInvariants VaultExamples.
#[local] Existing Instance VaultDemo.platform.

(** The page is reloaded after a second wallet was added. *)
Lemma reload_after_persist_witness :
  let saved := run_operation (OpAddWallet wallet_B) one_wallet_world in
  persists (OpAddWallet wallet_B) one_wallet_world = true
  /\ hasVault (hook (reload saved)) = true
  /\ isLocked (hook (reload saved)) = true
  /\ wallets (hook (snd (unlockVault "secret1" (reload saved))))
     = [wallet_A; wallet_B].
Proof.
  cbv zeta.
  destruct (reload_after_persist (OpAddWallet wallet_B) one_wallet_world
              "secret1" eq_refl)
    as (Hhas & Hlocked & _ & _ & _ & _ & Hstate).
  split; [reflexivity | split; [exact Hhas | split; [exact Hlocked |]]].
  destruct (Hstate eq_refl) as [Hws _]. exact Hws.
Defined.

(** The backup of scenario E goes into the vault that holds wallet A. *)
Lemma wallet_ids_stay_distinct_witness :
  NoDup (ids (wallets (hook one_wallet_world)))
  /\ NoDup (ids (wallets (hook (snd (importVaultData backup_json "secret1"
                                       one_wallet_world))))).
Proof.
  assert (Hone : NoDup (ids (wallets (hook one_wallet_world)))).
  { change (NoDup ["id-1"%string]). apply NoDup_singleton. }
  split; [exact Hone |].
  destruct (wallet_ids_stay_distinct one_wallet_world Hone) as (_ & _ & _ & Himport).
  apply (Himport backup_json "secret1" _ _ parse_backup_json eq_refl).
  change (NoDup ["id-1"%string; "id-2"%string]).
  apply NoDup_cons. split; [| apply NoDup_singleton].
  intros Hin. apply list_elem_of_singleton in Hin. discriminate Hin.
Defined.

End VaultInvariantsExamples.
